(** * tax-au-backend: W-2 field extraction and tax estimation

    A shallow embedding of the two computational pieces of the backend:

    - the helpers [extractField], [extractMoneyField] and
      [calculateStudentLoanInterest] and the record assembled by the
      [extract-w2] route (dashboard routes), and
    - the arithmetic of the [calculate-tax] route.

    JavaScript numbers are IEEE 754 binary64 values; they are modelled with
    the executable specification [spec_float] of the standard library at
    precision 53 and maximal exponent 1024, so that every operation of the
    handler rounds as it does at run time.  JavaScript strings are
    sequences of UTF-16 code units, modelled as lists of [N].

    What is left outside: the categories of [user.income] hold amounts or
    [null], as the column of the user model declares them (a nested object
    or a string among the values is not modelled); the values of the W-2
    record read by the 1098 helper are JSON scalars; the text of the
    uploaded file, the date of the call and the number of dependents are
    inputs of the routes. *)

From Stdlib Require Import ZArith NArith PArith List Bool Lia String Ascii.
From Stdlib Require Import Floats.SpecFloat.
Import ListNotations.

Open Scope Z_scope.

(* ================================================================== *)
(** * JavaScript numbers *)
(* ================================================================== *)

Module JSNumber.

Definition prec : Z := 53.
Definition emax : Z := 1024.

Definition number : Type := spec_float.

Definition NaN : number := S754_nan.
Definition zero : number := S754_zero false.
Definition Infinity : number := S754_infinity false.

(** The Number value of a mathematical integer (an integer literal, or a
    count handed to JavaScript). *)
Definition ofZ (z : Z) : number := binary_normalize prec emax z 0 false.

(** The Number value of the decimal [m * 10^e] with [m > 0]: the binary64
    value nearest to it, ties to even.  This is the value of a decimal
    literal of the source text and of a decimal parsed by [parseFloat]. *)
Definition ofDecimal (m : positive) (e : Z) : number :=
  match e with
  | Zneg k =>
      let '(q, e', l) :=
        SFdiv_core_binary prec emax (Zpos m) 0 (Zpos (10 ^ k)) 0 in
      binary_round_aux prec emax false q e' l
  | _ => binary_normalize prec emax (Zpos m * 10 ^ e) 0 false
  end.

Definition add : number -> number -> number := SFadd prec emax.
Definition sub : number -> number -> number := SFsub prec emax.
Definition mul : number -> number -> number := SFmul prec emax.
Definition div : number -> number -> number := SFdiv prec emax.
Definition neg : number -> number := SFopp.

(** [a < b], [a <= b], [a > b] of JavaScript: false as soon as an operand
    is NaN. *)
Definition lt (a b : number) : bool := SFltb a b.
Definition le (a b : number) : bool := SFleb a b.
Definition gt (a b : number) : bool := SFltb b a.

Definition isNaN (x : number) : bool :=
  match x with S754_nan => true | _ => false end.

Definition isFinite (x : number) : bool :=
  match x with S754_zero _ | S754_finite _ _ _ => true | _ => false end.

(** ToBoolean on a Number: [+0], [-0] and NaN are falsy. *)
Definition truthy (x : number) : bool :=
  match x with
  | S754_zero _ | S754_nan => false
  | _ => true
  end.

(** [Math.max(a, b)]: NaN if either argument is NaN; [+0] is larger than
    [-0]. *)
Definition Math_max (a b : number) : number :=
  if isNaN a || isNaN b then NaN
  else if lt a b then b
  else if lt b a then a
  else match a with
       | S754_zero true => b
       | _ => a
       end.

(** [Math.round(x)]: the integer nearest to [x], ties towards +Infinity;
    NaN, the infinities and the zeros are returned unchanged, and a
    negative [x] that rounds to zero gives [-0]. *)
Definition Math_round (x : number) : number :=
  match x with
  | S754_finite s m (Zneg k) =>
      let q := Z.shiftr (Zpos m) (Zpos k) in
      let r := Z.land (Zpos m) (Z.ones (Zpos k)) in
      let half := Z.shiftl 1 (Zpos k - 1) in
      if s
      then binary_normalize prec emax (- (if half <? r then q + 1 else q)) 0 true
      else binary_normalize prec emax (if half <=? r then q + 1 else q) 0 false
  | _ => x
  end.

End JSNumber.

(* ================================================================== *)
(** * JavaScript strings *)
(* ================================================================== *)

Module JSString.

(** A string is a sequence of UTF-16 code units. *)
Definition jsstring : Type := list N.

(** The string with the code units of an ASCII text. *)
Definition str (s : string) : jsstring :=
  map N_of_ascii (list_ascii_of_string s).

(** [WhiteSpace] and [LineTerminator] code units: what [trim], [\s] and
    [parseFloat] skip. *)
Definition isLineTerminator (c : N) : bool :=
  ((c =? 10) || (c =? 13) || (c =? 8232) || (c =? 8233))%N.

Definition isWhiteSpace (c : N) : bool :=
  ((c =? 9) || (c =? 11) || (c =? 12) || (c =? 32) || (c =? 160)
   || (c =? 5760) || ((8192 <=? c) && (c <=? 8202)) || (c =? 8239)
   || (c =? 8287) || (c =? 12288) || (c =? 65279))%N
  || isLineTerminator c.

Definition isDigit (c : N) : bool := ((48 <=? c) && (c <=? 57))%N.

Fixpoint dropWhile (p : N -> bool) (s : jsstring) : jsstring :=
  match s with
  | c :: s' => if p c then dropWhile p s' else s
  | [] => []
  end.

Fixpoint takeWhile (p : N -> bool) (s : jsstring) : jsstring :=
  match s with
  | c :: s' => if p c then c :: takeWhile p s' else []
  | [] => []
  end.

Definition trimStart (s : jsstring) : jsstring := dropWhile isWhiteSpace s.
Definition trimEnd (s : jsstring) : jsstring :=
  rev (dropWhile isWhiteSpace (rev s)).

(** [s.trim()] *)
Definition trim (s : jsstring) : jsstring := trimEnd (trimStart s).

(** [s.includes(c)] for a one-unit needle. *)
Definition includes (c : N) (s : jsstring) : bool := existsb (N.eqb c) s.

(** [s.replace(/c/g, '')] for a one-unit pattern: every occurrence goes. *)
Definition removeAll (c : N) (s : jsstring) : jsstring :=
  filter (fun x => negb (N.eqb x c)) s.

(** ToBoolean on a string: only the empty string is falsy. *)
Definition truthy (s : jsstring) : bool :=
  match s with [] => false | _ => true end.

Definition comma : N := 44%N.
Definition dot : N := 46%N.

(** Does [p] start [s]?  If so, what follows it. *)
Fixpoint stripPrefix (p s : jsstring) : option jsstring :=
  match p, s with
  | [], _ => Some s
  | a :: p', b :: s' => if (a =? b)%N then stripPrefix p' s' else None
  | _ :: _, [] => None
  end.

(** The value of a run of decimal digits, most significant first. *)
Definition digitsValue (ds : jsstring) : Z :=
  fold_left (fun acc c => 10 * acc + (Z.of_N c - 48)) ds 0.

(** The exponent part [e±ddd] at the head of [s], if a complete one is
    there; otherwise the exponent is 0. *)
Definition exponentPart (s : jsstring) : Z :=
  match s with
  | c :: s1 =>
      if ((c =? 101) || (c =? 69))%N then
        let '(sgn, s2) :=
          match s1 with
          | d :: s2 =>
              if (d =? 45)%N then (true, s2)
              else if (d =? 43)%N then (false, s2)
              else (false, s1)
          | [] => (false, s1)
          end in
        let ds := takeWhile isDigit s2 in
        if sgn then - digitsValue ds else digitsValue ds
      else 0
  | [] => 0
  end.

(** [parseFloat(s)]: skip leading white space, then read the longest
    prefix that is a [StrDecimalLiteral] (sign, then [Infinity] or decimal
    digits with an optional fraction and exponent); NaN when there is no
    such prefix. *)
Definition parseFloat (s : jsstring) : JSNumber.number :=
  let s0 := trimStart s in
  let '(negative, s1) :=
    match s0 with
    | c :: s' =>
        if (c =? 45)%N then (true, s')
        else if (c =? 43)%N then (false, s')
        else (false, s0)
    | [] => (false, s0)
    end in
  let signed (x : JSNumber.number) := if negative then JSNumber.neg x else x in
  match stripPrefix (str "Infinity") s1 with
  | Some _ => signed JSNumber.Infinity
  | None =>
      let ip := takeWhile isDigit s1 in
      let s2 := dropWhile isDigit s1 in
      let '(fp, s3) :=
        match s2 with
        | c :: s' =>
            if (c =? dot)%N
            then (takeWhile isDigit s', dropWhile isDigit s')
            else ([], s2)
        | [] => ([], s2)
        end in
      match ip ++ fp with
      | [] => JSNumber.NaN
      | ds =>
          match digitsValue ds with
          | Zpos m =>
              signed (JSNumber.ofDecimal m
                        (exponentPart s3 - Z.of_nat (List.length fp)))
          | _ => signed JSNumber.zero
          end
      end
  end.

(** A numeric literal of the source text denotes the Number that
    [parseFloat] reads from its spelling. *)
Definition lit (s : string) : JSNumber.number := parseFloat (str s).

End JSString.

(* ================================================================== *)
(** * Regular expressions

    [text.match(pattern)] with a non-global pattern returns [null] or the
    array of the leftmost match: the matched text at index 0 and the text
    of capture group 1 at index 1 ([undefined] when the group took no part
    in the match).  The matcher below is the backtracking matcher of the
    language for the fragment the routes use: character classes (the [i]
    flag is folded into the class), quantified classes, greedy or lazy,
    concatenation, alternation, one capture group and the assertions
    [^] and [$]. *)
(* ================================================================== *)

Module RegExp.
Import JSString.

Inductive quantifier : Type := Star | Plus | Opt.

Inductive regex : Type :=
| Eps
| Class (p : N -> bool)
| Quant (p : N -> bool) (q : quantifier) (greedy : bool)
| Cat (r1 r2 : regex)
| Alt (r1 r2 : regex)
| Group (r : regex)
| Bol (multiline : bool)
| Eol (multiline : bool).

(** A match array: index 0 is the matched text, index 1 capture group 1. *)
Definition matchArray : Type := list (option jsstring).

Section Matcher.
Context {A : Type}.

Definition one (p : N -> bool) (k : option N -> jsstring -> option A)
    (prev : option N) (s : jsstring) : option A :=
  match s with
  | c :: s' => if p c then k (Some c) s' else None
  | [] => None
  end.

Fixpoint many (p : N -> bool) (greedy : bool)
    (k : option N -> jsstring -> option A)
    (prev : option N) (s : jsstring) : option A :=
  match s with
  | c :: s' =>
      if greedy then
        if p c then
          match many p greedy k (Some c) s' with
          | Some a => Some a
          | None => k prev s
          end
        else k prev s
      else
        match k prev s with
        | Some a => Some a
        | None => if p c then many p greedy k (Some c) s' else None
        end
  | [] => k prev s
  end.

Definition optional (p : N -> bool) (greedy : bool)
    (k : option N -> jsstring -> option A)
    (prev : option N) (s : jsstring) : option A :=
  if greedy then
    match one p k prev s with
    | Some a => Some a
    | None => k prev s
    end
  else
    match k prev s with
    | Some a => Some a
    | None => one p k prev s
    end.

Definition atLineStart (multiline : bool) (prev : option N) : bool :=
  match prev with
  | None => true
  | Some c => multiline && isLineTerminator c
  end.

Definition atLineEnd (multiline : bool) (s : jsstring) : bool :=
  match s with
  | [] => true
  | c :: _ => multiline && isLineTerminator c
  end.

(** [run r k prev s cap]: match [r] at the head of [s] ([prev] is the
    code unit before it, [cap] the capture so far) and hand what is left
    to the continuation [k]; a failing continuation makes the matcher
    backtrack. *)
Fixpoint run (r : regex)
    (k : option N -> jsstring -> option jsstring -> option A)
    (prev : option N) (s : jsstring) (cap : option jsstring) : option A :=
  match r with
  | Eps => k prev s cap
  | Class p => one p (fun prev' s' => k prev' s' cap) prev s
  | Quant p Star g => many p g (fun prev' s' => k prev' s' cap) prev s
  | Quant p Plus g =>
      one p (many p g (fun prev' s' => k prev' s' cap)) prev s
  | Quant p Opt g => optional p g (fun prev' s' => k prev' s' cap) prev s
  | Cat r1 r2 =>
      run r1 (fun prev' s' cap' => run r2 k prev' s' cap') prev s cap
  | Alt r1 r2 =>
      match run r1 k prev s cap with
      | Some a => Some a
      | None => run r2 k prev s cap
      end
  | Group r1 =>
      run r1
        (fun prev' s' _ =>
           k prev' s' (Some (firstn (List.length s - List.length s') s)))
        prev s cap
  | Bol m => if atLineStart m prev then k prev s cap else None
  | Eol m => if atLineEnd m s then k prev s cap else None
  end.
End Matcher.

(** The leftmost match: try every start position in turn. *)
Fixpoint search (r : regex) (prev : option N) (s : jsstring)
  : option matchArray :=
  match run r (fun _ s' cap => Some (s', cap)) prev s None with
  | Some (s', cap) =>
      Some [Some (firstn (List.length s - List.length s') s); cap]
  | None =>
      match s with
      | c :: s' => search r (Some c) s'
      | [] => None
      end
  end.

(** [text.match(r)] *)
Definition exec (r : regex) (text : jsstring) : option matchArray :=
  search r None text.

(** ** Building patterns *)

Definition seq (rs : list regex) : regex := fold_right Cat Eps rs.

(** Canonicalisation of the [i] flag on the ASCII letters, the only
    letters the patterns of the routes contain. *)
Definition canonicalize (c : N) : N :=
  if ((97 <=? c) && (c <=? 122))%N then (c - 32)%N else c.

Definition sameLetter (a c : N) : bool :=
  (canonicalize a =? canonicalize c)%N.

(** A literal text under the [i] flag. *)
Definition texti (s : string) : regex :=
  seq (map (fun a => Class (sameLetter (N_of_ascii a)))
           (list_ascii_of_string s)).

(** One literal character. *)
Definition chr (s : string) : N -> bool :=
  match s with
  | String a _ => N.eqb (N_of_ascii a)
  | EmptyString => fun _ => false
  end.

(** [\s], [\d], [.], and the bracketed classes of the routes. *)
Definition space : N -> bool := isWhiteSpace.
Definition digit : N -> bool := isDigit.
Definition anyChar (c : N) : bool := negb (isLineTerminator c).
Definition colonOrSpace (c : N) : bool := chr ":" c || space c.
Definition digitOrComma (c : N) : bool := digit c || chr "," c.
Definition isLetter (c : N) : bool :=
  ((65 <=? canonicalize c) && (canonicalize c <=? 90))%N.
Definition nameChar (c : N) : bool :=
  isLetter c || space c || chr "," c || chr "." c || chr "-" c.

End RegExp.

(* ================================================================== *)
(** * JavaScript values stored in the user record *)
(* ================================================================== *)

Module JSValue.
Import JSString.

(** The scalar values of a JSON column. *)
Inductive value : Type :=
| VUndefined
| VNull
| VBool (b : bool)
| VNumber (x : JSNumber.number)
| VString (s : jsstring).

(** ToBoolean *)
Definition truthy (v : value) : bool :=
  match v with
  | VUndefined | VNull => false
  | VBool b => b
  | VNumber x => JSNumber.truthy x
  | VString s => JSString.truthy s
  end.

(** [a || b] *)
Definition orElse (a b : value) : value := if truthy a then a else b.

(** A helper result, [string | null], as a value. *)
Definition ofOption (o : option jsstring) : value :=
  match o with
  | Some s => VString s
  | None => VNull
  end.

(** An object: its own properties in insertion order. *)
Definition object : Type := list (string * value).

(** [o.key]: [undefined] when the object has no such property. *)
Fixpoint get (key : string) (o : object) : value :=
  match o with
  | (k, v) :: o' => if String.eqb k key then v else get key o'
  | [] => VUndefined
  end.

(** [parseFloat(v)]: [v] is first converted to a string.  A Number prints
    to a decimal that reads back as the same Number ([-0] prints as ["0"]);
    the other non-string scalars print to words that are not numerals. *)
Definition parseFloatOf (v : value) : JSNumber.number :=
  match v with
  | VString s => parseFloat s
  | VNumber (S754_zero _) => JSNumber.zero
  | VNumber x => x
  | _ => JSNumber.NaN
  end.

End JSValue.

(* ================================================================== *)
(** * Dashboard routes: W-2 extraction and the 1098 helper *)
(* ================================================================== *)

Module Dashboard.
Import JSString JSValue.

Section Helpers.
(** The helpers are written against [text.match(pattern)] alone. *)
Context {pattern : Type}.
Variable matchText : pattern -> jsstring -> option RegExp.matchArray.

(** [match[1]] *)
Definition group1 (m : RegExp.matchArray) : option jsstring := nth 1 m None.

(** [match && match[1]] as a condition, given [match]: the group took
    part in the match and is not the empty string. *)
Definition captured (m : option RegExp.matchArray) : option jsstring :=
  match m with
  | Some arr =>
      match group1 arr with
      | Some g => if JSString.truthy g then Some g else None
      | None => None
      end
  | None => None
  end.

(** Helper function to extract text fields. *)
Fixpoint extractField (text : jsstring) (patterns : list pattern)
  : option jsstring :=
  match patterns with
  | [] => None
  | p :: rest =>
      match captured (matchText p text) with
      | Some g => Some (trim g)
      | None => extractField text rest
      end
  end.

(** Remove commas; if no decimal point, add [.00]. *)
Definition formatAmount (g : jsstring) : jsstring :=
  let amount := removeAll comma g in
  if includes dot amount then amount else amount ++ str ".00".

(** Helper function to extract and format money fields. *)
Fixpoint extractMoneyField (text : jsstring) (patterns : list pattern)
  : option jsstring :=
  match patterns with
  | [] => None
  | p :: rest =>
      match captured (matchText p text) with
      | Some g => Some (formatAmount g)
      | None => extractMoneyField text rest
      end
  end.
End Helpers.

(** [parseFloat(w2Data.box1_wages || '0')] *)
Definition parsedWages (w2Data : object) : JSNumber.number :=
  parseFloatOf (orElse (get "box1_wages" w2Data) (VString (str "0"))).

(** Helper function to calculate student loan interest. *)
Definition calculateStudentLoanInterest (w2Data : object) : jsstring :=
  let wages := parsedWages w2Data in
  if JSNumber.gt wages (lit "30000") then str "2500.00"
  else if JSNumber.gt wages (lit "20000") then str "1500.00"
  else if JSNumber.gt wages (lit "10000") then str "800.00"
  else str "0.00".

(** ** The patterns of the [extract-w2] route *)

Import RegExp.
Local Open Scope string_scope.

Definition nameCapture : regex := Group (Quant nameChar Plus false).
Definition newlineOrEnd : regex := Alt (texti (String "010" "")) (Eol false).
Definition newline : regex := texti (String "010" "").

Definition employeeNamePatterns : list regex :=
  [ seq [texti "Employee's name"; Quant colonOrSpace Star true;
         nameCapture; newlineOrEnd];
    seq [texti "Employee"; Quant colonOrSpace Star true;
         nameCapture; Alt newline (texti "Employer")];
    seq [Bol true; nameCapture;
         Alt (seq [newline; Quant anyChar Star false; texti "SSN"])
             (texti "Social Security")] ].

Definition employerNamePatterns : list regex :=
  [ seq [texti "Employer's name"; Quant colonOrSpace Star true;
         nameCapture; newlineOrEnd];
    seq [texti "Employer"; Quant colonOrSpace Star true;
         nameCapture; Alt newline (texti "EIN")];
    seq [texti "Company"; Quant colonOrSpace Star true;
         nameCapture; newlineOrEnd] ].

(** The tail of every money pattern: colons and white space, an optional
    dollar sign, then the captured amount: digits and commas, an optional
    point, digits. *)
Definition amountTail : regex :=
  seq [Quant colonOrSpace Star true; Quant (chr "$") Opt true;
       Group (seq [Quant digitOrComma Plus true; Quant (chr ".") Opt true;
                   Quant digit Star true])].

Definition spaces : regex := Quant space Star true.

(** The pattern [Box n] followed by the amount tail, under the [i] flag. *)
Definition boxPattern (n : string) : regex :=
  seq [texti "Box"; spaces; texti n; amountTail].

(** A label whose words are separated by [\s*], under the [i] flag. *)
Definition words (ws : list string) : regex :=
  seq (map (fun w => Cat spaces (texti w)) ws).

Definition box1Patterns : list regex :=
  [ seq [texti "1"; spaces; texti "Wages"; Quant (chr ",") Opt true;
         spaces; texti "tips"; Quant (chr ",") Opt true;
         spaces; texti "other"; spaces; texti "compensation"; amountTail];
    boxPattern "1";
    seq [texti "Wages"; amountTail] ].

Definition box2Patterns : list regex :=
  [ seq [texti "2"; words ["Federal"; "income"; "tax"; "withheld"]; amountTail];
    boxPattern "2";
    seq [texti "Federal"; words ["tax"; "withheld"]; amountTail] ].

Definition box3Patterns : list regex :=
  [ seq [texti "3"; words ["Social"; "security"; "wages"]; amountTail];
    boxPattern "3";
    seq [texti "Social"; words ["security"; "wages"]; amountTail] ].

Definition box4Patterns : list regex :=
  [ seq [texti "4"; words ["Social"; "security"; "tax"; "withheld"]; amountTail];
    boxPattern "4";
    seq [texti "Social"; words ["security"; "tax"]; amountTail] ].

Definition box5Patterns : list regex :=
  [ seq [texti "5"; words ["Medicare"; "wages"; "and"; "tips"]; amountTail];
    boxPattern "5";
    seq [texti "Medicare"; words ["wages"]; amountTail] ].

Definition box6Patterns : list regex :=
  [ seq [texti "6"; words ["Medicare"; "tax"; "withheld"]; amountTail];
    boxPattern "6";
    seq [texti "Medicare"; words ["tax"]; amountTail] ].

(** ** The [extract-w2] route *)

Record user : Type := { w2FileName : value }.

Inductive response : Type :=
| Status400
| Status404
| Status500
| Success (data : object).

(** The record the route builds from the text of the uploaded file. *)
Definition extractedData (text : jsstring) (now : jsstring) (fileName : value)
  : object :=
  let employeeName := ofOption (extractField exec text employeeNamePatterns) in
  let employerName := ofOption (extractField exec text employerNamePatterns) in
  let box1_wages := ofOption (extractMoneyField exec text box1Patterns) in
  let box2_federalTax := ofOption (extractMoneyField exec text box2Patterns) in
  let box3_socialSecurityWages :=
    ofOption (extractMoneyField exec text box3Patterns) in
  let box4_socialSecurityTax :=
    ofOption (extractMoneyField exec text box4Patterns) in
  let box5_medicareWages := ofOption (extractMoneyField exec text box5Patterns) in
  let box6_medicareTax := ofOption (extractMoneyField exec text box6Patterns) in
  [ ("employeeName"%string, orElse employeeName (VString (str "Not found")));
    ("employerName"%string, orElse employerName (VString (str "Not found")));
    ("box1_wages"%string, orElse box1_wages (VString (str "0.00")));
    ("box2_federalTax"%string, orElse box2_federalTax (VString (str "0.00")));
    ("box3_socialSecurityWages"%string,
      orElse box3_socialSecurityWages (VString (str "0.00")));
    ("box4_socialSecurityTax"%string,
      orElse box4_socialSecurityTax (VString (str "0.00")));
    ("box5_medicareWages"%string,
      orElse box5_medicareWages (VString (str "0.00")));
    ("box6_medicareTax"%string, orElse box6_medicareTax (VString (str "0.00")));
    ("extractionDate"%string, VString now);
    ("fileName"%string, fileName) ].

(** The route: [u] is the user found for the request, [fileExists] whether
    the uploaded file is on disk, [pdfText] the text the PDF parser returns
    (it throws on a file it cannot read), [now] the ISO date of the call. *)
Definition extractW2 (u : option user) (fileExists : bool)
    (pdfText : option jsstring) (now : jsstring) : response :=
  match u with
  | None => Status400
  | Some usr =>
      if negb (truthy (w2FileName usr)) then Status400
      else if negb fileExists then Status404
      else match pdfText with
           | None => Status500
           | Some text => Success (extractedData text now (w2FileName usr))
           end
  end.

End Dashboard.

(* ================================================================== *)
(** * The [calculate-tax] route *)
(* ================================================================== *)

Module TaxRoute.
Import JSNumber JSString.

(** [user.income]: an object whose values are amounts; [None] stands for a
    category stored as [null]. *)
Definition incomeObject : Type := list (string * option number).

(** [val || 0] *)
Definition orZero (val : option number) : number :=
  match val with
  | Some x => if JSNumber.truthy x then x else lit "0"
  | None => lit "0"
  end.

(** [user.income || {}] *)
Definition orEmpty (income : option incomeObject) : incomeObject :=
  match income with
  | Some o => o
  | None => []
  end.

(** [Object.values(income).reduce((sum, val) => sum + (val || 0), 0)] *)
Definition totalIncomeOf (income : option incomeObject) : number :=
  fold_left (fun sum val => add sum (orZero val))
            (map snd (orEmpty income)) (lit "0").

(** The bracket cascade: the tax owed before the dependent deduction. *)
Definition bracketTax (totalIncome : number) : number :=
  if gt totalIncome (lit "0") then
    if le totalIncome (lit "10275") then
      mul totalIncome (lit "0.10")
    else if le totalIncome (lit "41775") then
      add (lit "1027.50") (mul (sub totalIncome (lit "10275")) (lit "0.12"))
    else if le totalIncome (lit "89450") then
      add (lit "4807.50") (mul (sub totalIncome (lit "41775")) (lit "0.22"))
    else
      add (lit "15213.50") (mul (sub totalIncome (lit "89450")) (lit "0.24"))
  else lit "0".

(** The [calculation] object of the response. *)
Record calculation : Type := {
  totalIncome : number;
  dependentsCount : number;
  dependentDeduction : number;
  taxOwed : number;
  effectiveRate : number
}.

(** The placeholder tax calculation, from the total income on. *)
Definition calculate (totalIncome : number) (dependentsCount : number)
  : calculation :=
  let taxOwed := bracketTax totalIncome in
  let dependentDeduction := mul dependentsCount (lit "2000") in
  let taxOwed := Math_max (lit "0") (sub taxOwed dependentDeduction) in
  {| totalIncome := totalIncome;
     dependentsCount := dependentsCount;
     dependentDeduction := dependentDeduction;
     taxOwed := div (Math_round (mul taxOwed (lit "100"))) (lit "100");
     effectiveRate :=
       if gt totalIncome (lit "0")
       then div (Math_round (mul (div taxOwed totalIncome) (lit "10000")))
                (lit "100")
       else lit "0" |}.

(** The handler: [income] is [user.income] and [dependents] the number of
    rows [Dependent.count] finds for the user. *)
Definition calculateTax (income : option incomeObject) (dependents : N)
  : calculation :=
  calculate (totalIncomeOf income) (ofZ (Z.of_N dependents)).

(** The route answers 404 when the user is not found. *)
Definition calculateTaxRoute (user : option (option incomeObject))
    (dependents : N) : option calculation :=
  match user with
  | None => None
  | Some income => Some (calculateTax income dependents)
  end.

End TaxRoute.

(* ================================================================== *)
(** * The user row and the routes that read and write it *)
(* ================================================================== *)

Module Account.
Import JSString JSValue.

(** The value of a JSON column: a scalar or an object (arrays are not
    modelled). *)
#[warnings="-register-all"]
Inductive json : Type :=
| JScalar (v : value)
| JObject (fields : list (string * json)).

(** ToBoolean: every object is truthy. *)
Definition truthy (j : json) : bool :=
  match j with
  | JScalar v => JSValue.truthy v
  | JObject _ => true
  end.

(** [a || b] *)
Definition orElse (a b : json) : json := if truthy a then a else b.

Fixpoint lookup (key : string) (fields : list (string * json)) : json :=
  match fields with
  | (k, x) :: rest => if String.eqb k key then x else lookup key rest
  | [] => JScalar VUndefined
  end.

(** [j?.key]: [undefined] on [null], [undefined] and on a value that has
    no such property. *)
Definition prop (key : string) (j : json) : json :=
  match j with
  | JObject fields => lookup key fields
  | JScalar _ => JScalar VUndefined
  end.

(** The properties [...j] copies into an object literal: those of an
    object, none of [null] or [undefined] (the columns hold objects or
    [null]). *)
Definition spread (j : json) : list (string * json) :=
  match j with
  | JObject fields => fields
  | JScalar _ => []
  end.

(** A property written after a spread, [{...j, key: x}]: it replaces the
    property of that name where it stands, or comes last. *)
Fixpoint setField (key : string) (x : json) (fields : list (string * json))
  : list (string * json) :=
  match fields with
  | (k, y) :: rest =>
      if String.eqb k key then (k, x) :: rest
      else (k, y) :: setField key x rest
  | [] => [(key, x)]
  end.

(** A flat record as a JSON object, and back: a nested object among the
    fields stands as the text it prints to, which is all [parseFloat] and
    [||] see of it. *)
Definition ofObject (o : object) : json :=
  JObject (map (fun kv => (fst kv, JScalar (snd kv))) o).

Definition scalarOf (j : json) : value :=
  match j with
  | JScalar v => v
  | JObject _ => VString (str "[object Object]")
  end.

Definition asObject (j : json) : object :=
  map (fun kv => (fst kv, scalarOf (snd kv))) (spread j).

(** The columns of the user row that the dashboard routes use. *)
Record account : Type := {
  firstName : option jsstring;
  lastName : option jsstring;
  ssn : option jsstring;
  address : json;
  w2Uploaded : value;
  w2UploadDate : value;
  w2FileName : value;
  income : json;
  deductions : json
}.

(** The answer of a route: a status code, or the body of a success. *)
Inductive reply (A : Type) : Type :=
| Status (code : N)
| Ok (body : A).
Arguments Status {A} code.
Arguments Ok {A} body.

(** ** [POST /upload-w2] *)

(** The name the storage gives to an uploaded W-2: [suffix] is the unique
    suffix and [ext] the extension of the original name. *)
Definition w2StoredName (suffix ext : jsstring) : jsstring :=
  str "w2-" ++ suffix ++ ext.

(** [file] is [req.file.filename], when a file came with the request;
    [now] is the date written to the row and [answered] the date of the
    answer, which is read from the clock a second time. *)
Definition uploadW2 (file : option jsstring) (u : option account)
    (now answered : jsstring) : reply (jsstring * jsstring) * option account :=
  match file with
  | None => (Status 400, u)
  | Some filename =>
      match u with
      | None => (Status 404, u)
      | Some a =>
          (Ok (filename, answered),
           Some {| firstName := firstName a; lastName := lastName a;
                   ssn := ssn a; address := address a;
                   w2Uploaded := VBool true;
                   w2UploadDate := VString now;
                   w2FileName := VString filename;
                   income := income a; deductions := deductions a |})
      end
  end.

(** ** [POST /extract-w2] *)

Definition extractW2Route (u : option account) (fileExists : bool)
    (pdfText : option jsstring) (now : jsstring)
  : reply object * option account :=
  match Dashboard.extractW2
          (option_map (fun a => {| Dashboard.w2FileName := w2FileName a |}) u)
          fileExists pdfText now with
  | Dashboard.Status400 => (Status 400, u)
  | Dashboard.Status404 => (Status 404, u)
  | Dashboard.Status500 => (Status 500, u)
  | Dashboard.Success data =>
      (Ok data,
       option_map
         (fun a =>
            {| firstName := firstName a; lastName := lastName a;
               ssn := ssn a; address := address a;
               w2Uploaded := w2Uploaded a; w2UploadDate := w2UploadDate a;
               w2FileName := w2FileName a;
               income :=
                 JObject (setField "w2Data" (ofObject data)
                                   (spread (income a)));
               deductions := deductions a |})
         u)
  end.

(** ** [GET /w2-data] *)

Definition getW2Data (u : option account) : reply json :=
  match u with
  | None => Status 404
  | Some a =>
      let w2Data := orElse (prop "w2Data" (income a)) (JScalar VNull) in
      if negb (truthy w2Data) then Status 404 else Ok w2Data
  end.

(** ** [POST /generate-1098] *)

(** [s || ''] on a string column *)
Definition orEmptyString (s : option jsstring) : jsstring :=
  match s with
  | Some t => t
  | None => []
  end.

(** [s || d] on a string column *)
Definition orDefault (s : option jsstring) (d : jsstring) : jsstring :=
  match s with
  | Some t => if JSString.truthy t then t else d
  | None => d
  end.

(** The recipient name: both names, either replaced by the empty string
    when missing, joined by a space and trimmed; [N/A] if nothing is left. *)
Definition recipientName (a : account) : jsstring :=
  let joined :=
    trim (orEmptyString (firstName a) ++ str " " ++ orEmptyString (lastName a)) in
  if JSString.truthy joined then joined else str "N/A".

(** [fullYear] is [new Date().getFullYear()] and [now] the ISO date. *)
Definition form1098Data (a : account) (fullYear : JSNumber.number)
    (now : jsstring) : list (string * json) :=
  let w2Data := orElse (prop "w2Data" (income a)) (JObject []) in
  [ ("taxYear"%string,
      JScalar (VNumber (JSNumber.sub fullYear (lit "1"))));
    ("payerName"%string, JScalar (VString (str "Auto Tax Filing Service")));
    ("payerTIN"%string, JScalar (VString (str "12-3456789")));
    ("recipientName"%string, JScalar (VString (recipientName a)));
    ("recipientTIN"%string, JScalar (VString (orDefault (ssn a) (str "N/A"))));
    ("recipientAddress"%string, orElse (address a) (JObject []));
    ("box1_studentLoanInterest"%string,
      JScalar (VString
                 (Dashboard.calculateStudentLoanInterest (asObject w2Data))));
    ("box2_excludesOriginationFees"%string, JScalar (VBool false));
    ("generatedDate"%string, JScalar (VString now));
    ("formType"%string, JScalar (VString (str "1098-E")));
    ("corrected"%string, JScalar (VBool false)) ].

Definition generate1098 (u : option account) (fullYear : JSNumber.number)
    (now : jsstring) : reply json * option account :=
  match u with
  | None => (Status 404, u)
  | Some a =>
      let form := JObject (form1098Data a fullYear now) in
      (Ok form,
       Some {| firstName := firstName a; lastName := lastName a;
               ssn := ssn a; address := address a;
               w2Uploaded := w2Uploaded a; w2UploadDate := w2UploadDate a;
               w2FileName := w2FileName a; income := income a;
               deductions :=
                 JObject (setField "form1098Data" form
                                   (spread (deductions a))) |})
  end.

(** ** [GET /1098-data] *)

Definition get1098Data (u : option account) : reply json :=
  match u with
  | None => Status 404
  | Some a =>
      let form :=
        orElse (prop "form1098Data" (deductions a)) (JScalar VNull) in
      if negb (truthy form) then Status 404 else Ok form
  end.

End Account.

(* ================================================================== *)
(** * The authorization middleware *)
(* ================================================================== *)

Module Auth.
Import JSString.

(** [s.replace(pattern, '')] with a string pattern: the first occurrence
    of the pattern goes, the rest stays. *)
Fixpoint removeFirst (pattern s : jsstring) : jsstring :=
  match stripPrefix pattern s with
  | Some rest => rest
  | None =>
      match s with
      | c :: s' => c :: removeFirst pattern s'
      | [] => []
      end
  end.

(** What the middleware does with a request: answer 401 for want of a
    token, answer 401 for a token that does not verify, or go on with the
    user of the token. *)
Inductive outcome (U : Type) : Type :=
| NoToken
| InvalidToken
| Next (user : U).
Arguments NoToken {U}.
Arguments InvalidToken {U}.
Arguments Next {U} user.

(** [authorization] is the header of the request, if it has one;
    [verify] stands for the verification of the token and the reading of
    the user in its payload ([None] when the verification throws). *)
Definition auth {U : Type} (verify : jsstring -> option U)
    (authorization : option jsstring) : outcome U :=
  match option_map (removeFirst (str "Bearer ")) authorization with
  | None => NoToken
  | Some token =>
      if negb (truthy token) then NoToken
      else match verify token with
           | Some user => Next user
           | None => InvalidToken
           end
  end.

End Auth.

(* ================================================================== *)
(** * The mocked W-2 extraction *)
(* ================================================================== *)

Module Mock.
Import JSString.

(** The text a string column gives when it is added to a string: its
    value, or [null]. *)
Definition concatText (s : option jsstring) : jsstring :=
  match s with
  | Some t => t
  | None => str "null"
  end.

(** [user.firstName + ' ' + user.lastName || 'John Doe'] *)
Definition employeeName (firstName lastName : option jsstring) : jsstring :=
  let name := concatText firstName ++ str " " ++ concatText lastName in
  if truthy name then name else str "John Doe".

End Mock.

(* ================================================================== *)
(** * Notions used to state the properties *)
(* ================================================================== *)

Import JSNumber JSString JSValue TaxRoute Dashboard.

(** The text after the first decimal point of [s], if [s] has a point. *)
Fixpoint afterDot (s : jsstring) : option jsstring :=
  match s with
  | [] => None
  | c :: s' => if (c =? dot)%N then Some s' else afterDot s'
  end.

(** [s] has exactly one decimal point, and exactly two digits follow it. *)
Definition hasTwoDecimals (s : jsstring) : bool :=
  match afterDot s with
  | Some [d1; d2] => isDigit d1 && isDigit d2
  | _ => false
  end.

(** The text of a two-line document: a name label with nothing but a
    space after it, then a second label with a name. *)
Definition blankNameText : jsstring :=
  str "Employee's name: " ++ [10%N] ++ str "Employee: John Smith" ++ [10%N].

(** A key whose lexicographic order is the order of the Numbers that are
    not NaN. *)
Definition orderKey (x : number) : Z * Z * Z :=
  match x with
  | S754_nan | S754_zero _ => (0, 0, 0)
  | S754_infinity false => (2, 0, 0)
  | S754_infinity true => (-2, 0, 0)
  | S754_finite false m e => (1, e, Zpos m)
  | S754_finite true m e => (-1, - e, Zneg m)
  end.

Definition keyLt (a b : Z * Z * Z) : Prop :=
  let '(a1, a2, a3) := a in
  let '(b1, b2, b3) := b in
  a1 < b1 \/ (a1 = b1 /\ (a2 < b2 \/ (a2 = b2 /\ a3 < b3))).

Definition keyLe (a b : Z * Z * Z) : Prop :=
  let '(a1, a2, a3) := a in
  let '(b1, b2, b3) := b in
  a1 < b1 \/ (a1 = b1 /\ (a2 < b2 \/ (a2 = b2 /\ a3 <= b3))).

(** [x] is not NaN and its sign bit is [s]. *)
Definition hasSign (s : bool) (x : number) : bool :=
  match x with
  | S754_nan => false
  | S754_zero s' | S754_infinity s' | S754_finite s' _ _ => Bool.eqb s' s
  end.

(** Every category of the income aggregate is zero or absent. *)
Definition allZeroOrAbsent (income : option incomeObject) : Prop :=
  forall k v,
    In (k, v) (orEmpty income) ->
    v = None \/ exists s, v = Some (S754_zero s).

(** Every amount of the income aggregate is a binary64 value, as every
    JavaScript number is. *)
Definition validIncome (income : option incomeObject) : Prop :=
  forall k x,
    In (k, Some x) (orEmpty income) -> valid_binary prec emax x = true.

(* ================================================================== *)
(** * Notions used to state further properties *)
(* ================================================================== *)

Import RegExp.

(** The texts a pattern can consume, whatever the matching order. *)
Fixpoint lang (r : regex) (w : jsstring) : Prop :=
  match r with
  | Eps | Bol _ | Eol _ => w = []
  | Class p => exists c, w = [c] /\ p c = true
  | Quant p Star _ => forallb p w = true
  | Quant p Plus _ => w <> [] /\ forallb p w = true
  | Quant p Opt _ => w = [] \/ exists c, w = [c] /\ p c = true
  | Cat r1 r2 => exists u v, w = u ++ v /\ lang r1 u /\ lang r2 v
  | Alt r1 r2 => lang r1 w \/ lang r2 w
  | Group r1 => lang r1 w
  end.

(** The patterns inside the capture groups of a pattern. *)
Fixpoint groupsOf (r : regex) : list regex :=
  match r with
  | Cat r1 r2 | Alt r1 r2 => groupsOf r1 ++ groupsOf r2
  | Group r1 => [r1]
  | _ => []
  end.

(** A capture is either absent or a text of one of the given patterns. *)
Definition capturedBy (rs : list regex) (cap : option jsstring) : Prop :=
  match cap with
  | None => True
  | Some g => exists a, In a rs /\ lang a g
  end.

(** Digits, one decimal point, digits: nothing else. *)
Definition isDecimalNumeral (s : jsstring) : bool :=
  match dropWhile isDigit s with
  | c :: f => (c =? dot)%N && forallb isDigit f
  | [] => false
  end.

(** No white space at either end. *)
Definition isTrimmed (s : jsstring) : bool :=
  match s with
  | [] => true
  | c :: _ => negb (isWhiteSpace c) && negb (isWhiteSpace (last s c))
  end.

(** The capture group of every money pattern and of every name pattern. *)
Definition amountGroup : regex :=
  seq [Quant digitOrComma Plus true; Quant (chr ".") Opt true;
       Quant digit Star true].

Definition nameGroup : regex := Quant nameChar Plus false.

Definition moneyPatternLists : list (list regex) :=
  [box1Patterns; box2Patterns; box3Patterns;
   box4Patterns; box5Patterns; box6Patterns].

Definition namePatternLists : list (list regex) :=
  [employeeNamePatterns; employerNamePatterns].

Definition moneyKeys : list string :=
  ["box1_wages"; "box2_federalTax"; "box3_socialSecurityWages";
   "box4_socialSecurityTax"; "box5_medicareWages"; "box6_medicareTax"]%string.

Definition nameKeys : list string := ["employeeName"; "employerName"]%string.

(** What the middleware answers once it holds a token: nothing is
    verified for an empty one. *)
Definition answerFor {U : Type} (verify : jsstring -> option U)
    (token : jsstring) : Auth.outcome U :=
  if JSString.truthy token then
    match verify token with
    | Some user => Auth.Next user
    | None => Auth.InvalidToken
    end
  else Auth.NoToken.

(** A category that [val || 0] counts as zero: [null], a zero of either
    sign, or NaN. *)
Definition countsForNothing (v : option number) : bool :=
  match v with
  | None => true
  | Some x => negb (JSNumber.truthy x)
  end.

(** The amount that goes with the wages [wages]: the four tiers, each
    with the comparisons that select it. *)
Definition tierOf (wages : number) (r : jsstring) : Prop :=
  (gt wages (lit "30000") = true -> r = str "2500.00") /\
  (gt wages (lit "30000") = false -> gt wages (lit "20000") = true ->
   r = str "1500.00") /\
  (gt wages (lit "20000") = false -> gt wages (lit "10000") = true ->
   r = str "800.00") /\
  (gt wages (lit "10000") = false -> r = str "0.00").

(** The wages that are read from the value [v] of a wages field: a
    non-empty string is parsed, a Number other than zero and NaN is
    itself, a falsy value is replaced by the text [0], and [true] does
    not parse. *)
Definition wagesIn (v : value) (wages : number) : Prop :=
  (exists s, v = VString s /\ s <> [] /\ wages = parseFloat s) \/
  (exists x, v = VNumber x /\ JSNumber.truthy x = true /\ wages = x) \/
  (JSValue.truthy v = false /\ wages = parseFloat (str "0")) \/
  (v = VBool true /\ wages = NaN).

(* ================================================================== *)
(** * Facts about Numbers *)
(* ================================================================== *)

(** ** Order *)

Ltac order_cases e1 e2 m1 m2 :=
  change (Pos.compare_cont Eq m1 m2) with (Pos.compare m1 m2);
  destruct (Z.compare_spec e1 e2); destruct (Pos.compare_spec m1 m2);
  cbn -[Z.lt Z.le Z.opp];
  repeat match goal with
         | |- context [Z.neg ?p] => change (Z.neg p) with (- Z.pos p)
         end;
  intuition (discriminate || lia).

Lemma SFltb_key (x y : number) :
  SFltb x y = true <->
  isNaN x = false /\ isNaN y = false /\ keyLt (orderKey x) (orderKey y).
Proof.
  unfold SFltb.
  destruct x as [[]|[]| |[] m1 e1], y as [[]|[]| |[] m2 e2];
    cbn -[Z.compare Z.lt Z.le Z.opp];
    try solve [intuition (discriminate || lia)].
  all: order_cases e1 e2 m1 m2.
Qed.

Lemma SFleb_key (x y : number) :
  SFleb x y = true <->
  isNaN x = false /\ isNaN y = false /\ keyLe (orderKey x) (orderKey y).
Proof.
  unfold SFleb.
  destruct x as [[]|[]| |[] m1 e1], y as [[]|[]| |[] m2 e2];
    cbn -[Z.compare Z.lt Z.le Z.opp];
    try solve [intuition (discriminate || lia)].
  all: order_cases e1 e2 m1 m2.
Qed.

Ltac key_triples :=
  repeat match goal with
         | a : (Z * Z * Z)%type |- _ => destruct a as [[? ?] ?]
         end;
  unfold keyLt, keyLe in *.

Lemma keyLt_le_trans (a b c : Z * Z * Z) : keyLt a b -> keyLe b c -> keyLt a c.
Proof. key_triples. lia. Qed.

Lemma keyLe_trans (a b c : Z * Z * Z) : keyLe a b -> keyLe b c -> keyLe a c.
Proof. key_triples. lia. Qed.

Lemma keyLt_not_ge (a b : Z * Z * Z) : keyLt a b -> ~ keyLe b a.
Proof. key_triples. lia. Qed.

Lemma keyLe_total (a b : Z * Z * Z) : keyLe a b \/ keyLt b a.
Proof. key_triples. lia. Qed.

(** [c < x] and [x <= y] give [c < y]. *)
Lemma lt_le_trans (c x y : number) :
  lt c x = true -> le x y = true -> lt c y = true.
Proof.
  unfold lt, le. rewrite !SFltb_key, SFleb_key.
  intros (Hc & _ & H1) (_ & Hy & H2); repeat split; auto.
  eapply keyLt_le_trans; eassumption.
Qed.

Lemma le_trans (x y z : number) :
  le x y = true -> le y z = true -> le x z = true.
Proof.
  unfold le. rewrite !SFleb_key.
  intros (Hx & _ & H1) (_ & Hz & H2); repeat split; auto.
  eapply keyLe_trans; eassumption.
Qed.

(** [c < x] excludes [x <= c]. *)
Lemma lt_not_ge (c x : number) : lt c x = true -> le x c = false.
Proof.
  unfold lt, le. intros H. apply SFltb_key in H. destruct H as (_ & _ & H).
  destruct (SFleb x c) eqn:E; [|reflexivity].
  apply SFleb_key in E. destruct E as (_ & _ & E).
  exfalso. eapply keyLt_not_ge; eassumption.
Qed.

(** Numbers that are not NaN are comparable. *)
Lemma not_le_lt (c x : number) :
  isNaN x = false -> isNaN c = false -> le x c = false -> lt c x = true.
Proof.
  unfold lt, le. intros Hx Hc H. apply SFltb_key. repeat split; auto.
  destruct (keyLe_total (orderKey x) (orderKey c)) as [E|E]; auto.
  exfalso. assert (SFleb x c = true); [|congruence].
  apply SFleb_key. auto.
Qed.

Lemma lt_not_NaN (x y : number) :
  lt x y = true -> isNaN x = false /\ isNaN y = false.
Proof. unfold lt. rewrite SFltb_key. tauto. Qed.

Lemma lt_le (x y : number) : lt x y = true -> le x y = true.
Proof.
  unfold lt, le. rewrite SFltb_key, SFleb_key.
  intros (Hx & Hy & H). repeat split; auto.
  destruct (orderKey x) as [[? ?] ?], (orderKey y) as [[? ?] ?].
  unfold keyLt, keyLe in *. lia.
Qed.

(** ** Rounding *)

Lemma digits2_pos_size (p : positive) : digits2_pos p = Pos.size p.
Proof. induction p; simpl; congruence. Qed.

Lemma Zdigits2_log2 (z : Z) : 0 < z -> Zdigits2 z = Z.log2 z + 1.
Proof.
  destruct z as [|p|p]; try lia. intros _. simpl.
  rewrite digits2_pos_size. destruct p; simpl; lia.
Qed.

Lemma Zdigits2_nonneg (z : Z) : 0 <= Zdigits2 z.
Proof. destruct z; simpl; lia. Qed.

Lemma Zdigits2_mono (a b : Z) : 0 <= a <= b -> Zdigits2 a <= Zdigits2 b.
Proof.
  intros [Ha Hab]. destruct (Z.eq_dec a 0) as [->|Hn].
  - apply Zdigits2_nonneg.
  - rewrite !Zdigits2_log2 by lia. pose proof (Z.log2_le_mono a b Hab). lia.
Qed.

Lemma Zdigits2_succ (a : Z) : 0 <= a -> Zdigits2 (a + 1) <= Zdigits2 a + 1.
Proof.
  intros Ha. destruct (Z.eq_dec a 0) as [->|Hn]; [simpl; lia|].
  rewrite !Zdigits2_log2 by lia. pose proof (Z.log2_succ_le a).
  unfold Z.succ in *. lia.
Qed.

Lemma Zdigits2_mul (a b : Z) :
  0 < a -> 0 < b -> Zdigits2 (a * b) <= Zdigits2 a + Zdigits2 b.
Proof.
  intros Ha Hb. rewrite !Zdigits2_log2 by nia.
  pose proof (Z.log2_mul_above a b). lia.
Qed.

Lemma Zdigits2_lt_pow2 (z k : Z) : 0 < z < 2 ^ k -> Zdigits2 z <= k.
Proof.
  intros [Hz Hk]. rewrite Zdigits2_log2 by lia.
  apply Z.log2_lt_pow2 in Hk; lia.
Qed.

Lemma shr_1_bounds (mrs : shr_record) :
  0 <= shr_m mrs -> 0 <= shr_m (shr_1 mrs) <= shr_m mrs.
Proof.
  destruct mrs as [m r s]. simpl. intros Hm.
  destruct m as [|[p|p|]|p]; simpl; lia.
Qed.

Lemma iter_shr_1_bounds (p : positive) (mrs : shr_record) :
  0 <= shr_m mrs -> 0 <= shr_m (iter_pos shr_1 p mrs) <= shr_m mrs.
Proof.
  revert mrs. induction p as [p IH|p IH|]; intros mrs Hm; simpl.
  - pose proof (shr_1_bounds mrs Hm) as H1.
    pose proof (IH _ (proj1 H1)) as H2.
    pose proof (IH _ (proj1 H2)) as H3. lia.
  - pose proof (IH _ Hm) as H2.
    pose proof (IH _ (proj1 H2)) as H3. lia.
  - apply shr_1_bounds, Hm.
Qed.

Lemma shr_record_of_loc_m (m : Z) (l : location) :
  shr_m (shr_record_of_loc m l) = m.
Proof. destruct l as [|[]]; reflexivity. Qed.

Lemma shr_fexp_bounds (m e : Z) (l : location) :
  0 <= m ->
  0 <= shr_m (fst (shr_fexp prec emax m e l)) <= m /\
  snd (shr_fexp prec emax m e l) = Z.max e (fexp prec emax (Zdigits2 m + e)).
Proof.
  intros Hm. unfold shr_fexp, shr.
  destruct (fexp prec emax (Zdigits2 m + e) - e) as [|p|p] eqn:E; simpl;
    rewrite ?shr_record_of_loc_m; try (split; lia).
  pose proof (iter_shr_1_bounds p (shr_record_of_loc m l)) as H.
  rewrite shr_record_of_loc_m in H. split; [auto|lia].
Qed.

Lemma round_nearest_even_bounds (m : Z) (l : location) :
  0 <= m -> m <= round_nearest_even m l <= m + 1.
Proof.
  intros Hm. destruct l as [|[]]; simpl; try lia.
  destruct (Z.even m); lia.
Qed.

Lemma fexp_mono (a b : Z) : a <= b -> fexp prec emax a <= fexp prec emax b.
Proof. unfold fexp. lia. Qed.

(** The shape of a rounded result: the sign is the one asked for, the
    mantissa has grown by at most one and the exponent is bounded. *)
Lemma binary_round_aux_cases (sx : bool) (mx ex : Z) (lx : location) :
  0 <= mx ->
  exists m2 e2,
    0 <= m2 <= mx + 1 /\ ex <= e2 /\
    e2 <= Z.max (Z.max ex (fexp prec emax (Zdigits2 mx + ex)))
                (fexp prec emax (Zdigits2 mx + 1 +
                   Z.max ex (fexp prec emax (Zdigits2 mx + ex)))) /\
    binary_round_aux prec emax sx mx ex lx =
    match m2 with
    | Z0 => S754_zero sx
    | Zpos m => if e2 <=? emax - prec then S754_finite sx m e2
                else S754_infinity sx
    | Zneg _ => S754_nan
    end.
Proof.
  intros Hm. unfold binary_round_aux.
  pose proof (shr_fexp_bounds mx ex lx Hm) as [H1 E1].
  destruct (shr_fexp prec emax mx ex lx) as [mrs1 e1]. simpl in H1, E1.
  set (m1 := round_nearest_even (shr_m mrs1) (loc_of_shr_record mrs1)).
  pose proof (round_nearest_even_bounds (shr_m mrs1) (loc_of_shr_record mrs1)
                (proj1 H1)) as Hr. fold m1 in Hr.
  assert (Hm1 : 0 <= m1) by lia.
  pose proof (shr_fexp_bounds m1 e1 loc_Exact Hm1) as [H2 E2].
  destruct (shr_fexp prec emax m1 e1 loc_Exact) as [mrs2 e2]. simpl in H2, E2.
  exists (shr_m mrs2), e2. split; [lia|]. split; [lia|]. split; [|reflexivity].
  assert (Hd : Zdigits2 m1 <= Zdigits2 mx + 1).
  { transitivity (Zdigits2 (mx + 1)).
    - apply Zdigits2_mono. lia.
    - apply Zdigits2_succ, Hm. }
  pose proof (fexp_mono (Zdigits2 m1 + e1) (Zdigits2 mx + 1 + e1)).
  subst e1 e2. lia.
Qed.

(** ** Signs *)

Lemma hasSign_notNaN (s : bool) (x : number) :
  hasSign s x = true -> isNaN x = false.
Proof. destruct x; simpl; congruence. Qed.

Lemma binary_round_aux_sign (sx : bool) (mx ex : Z) (lx : location) :
  0 <= mx -> hasSign sx (binary_round_aux prec emax sx mx ex lx) = true.
Proof.
  intros Hm.
  destruct (binary_round_aux_cases sx mx ex lx Hm) as (m2 & e2 & H2 & _ & _ & ->).
  destruct m2 as [|p|p]; try lia; [|destruct (e2 <=? emax - prec)];
    simpl; apply Bool.eqb_reflx.
Qed.

Lemma binary_round_sign (sx : bool) (mx : positive) (ex : Z) :
  hasSign sx (binary_round prec emax sx mx ex) = true.
Proof.
  unfold binary_round.
  destruct (shl_align mx ex (fexp prec emax (Z.pos (digits2_pos mx) + ex)))
    as [mz ez].
  apply binary_round_aux_sign. lia.
Qed.

Lemma binary_normalize_sign (m e : Z) (s : bool) :
  hasSign (if m =? 0 then s else m <? 0) (binary_normalize prec emax m e s)
  = true.
Proof.
  destruct m as [|p|p]; simpl.
  - apply Bool.eqb_reflx.
  - apply binary_round_sign.
  - apply binary_round_sign.
Qed.

Lemma binary_normalize_nonneg (m e : Z) :
  0 <= m -> hasSign false (binary_normalize prec emax m e false) = true.
Proof.
  intros Hm. pose proof (binary_normalize_sign m e false) as H.
  destruct (m =? 0); [exact H|].
  destruct (Z.ltb_spec m 0); [lia|exact H].
Qed.

Lemma binary_normalize_notNaN (m e : Z) (s : bool) :
  isNaN (binary_normalize prec emax m e s) = false.
Proof. eapply hasSign_notNaN, binary_normalize_sign. Qed.

Lemma ofZ_nonneg (n : Z) : 0 <= n -> hasSign false (ofZ n) = true.
Proof. apply binary_normalize_nonneg. Qed.

Lemma mul_sign (s : bool) (x : number) (m : positive) (e : Z) :
  hasSign s x = true -> hasSign s (mul x (S754_finite false m e)) = true.
Proof.
  destruct x as [sx|sx| |sx mx ex]; simpl; try discriminate;
    rewrite ?xorb_false_r; auto.
  intros H. apply Bool.eqb_prop in H. subst sx.
  apply binary_round_aux_sign. lia.
Qed.

Lemma div_sign (s : bool) (x : number) (m : positive) (e : Z) :
  hasSign s x = true -> hasSign s (div x (S754_finite false m e)) = true.
Proof.
  destruct x as [sx|sx| |sx mx ex]; simpl; try discriminate;
    rewrite ?xorb_false_r; auto.
  intros H. apply Bool.eqb_prop in H. subst sx.
  unfold SFdiv_core_binary.
  set (s' := ex - e - Z.min _ _). set (e' := Z.min _ _).
  set (m' := match s' with Z0 => _ | Zpos _ => _ | Zneg _ => _ end).
  assert (Hm' : 0 <= m').
  { subst m'. destruct s'; try lia. apply Z.shiftl_nonneg. lia. }
  pose proof (Z_div_mod m' (Z.pos m) eq_refl) as Hdiv.
  destruct (Z.div_eucl m' (Z.pos m)) as [q r].
  apply binary_round_aux_sign. nia.
Qed.

Lemma Math_round_sign (s : bool) (x : number) :
  hasSign s x = true -> hasSign s (Math_round x) = true.
Proof.
  destruct x as [sx|sx| |sx mx [|k|k]]; simpl; auto.
  intros H. apply Bool.eqb_prop in H. subst sx.
  set (q := Z.shiftr (Z.pos mx) (Z.pos k)).
  assert (Hq : 0 <= q) by (apply Z.shiftr_nonneg; lia).
  destruct s.
  - set (n := if _ <? _ then q + 1 else q).
    assert (Hn : 0 <= n) by (subst n; destruct (_ <? _); lia).
    pose proof (binary_normalize_sign (- n) 0 true) as H.
    destruct (Z.eqb_spec (- n) 0); [exact H|].
    destruct (Z.ltb_spec (- n) 0); [exact H|lia].
  - apply binary_normalize_nonneg. destruct (_ <=? _); lia.
Qed.

Lemma Math_max_zero_sign (y : number) :
  isNaN y = false -> hasSign false (Math_max zero y) = true.
Proof.
  destruct y as [[]|[]| |[] m e]; simpl; try discriminate; reflexivity.
Qed.

Lemma hasSign_nonneg (x : number) :
  hasSign false x = true -> le zero x = true.
Proof. destruct x as [[]|[]| |[] m e]; simpl; try discriminate; reflexivity. Qed.

Lemma sub_notNaN (x y : number) :
  isNaN x = false -> isFinite y = true -> isNaN (sub x y) = false.
Proof.
  destruct x as [[]|[]| |sx mx ex], y as [[]|[]| |sy my ey];
    simpl; try discriminate; try reflexivity.
  intros _ _. apply binary_normalize_notNaN.
Qed.

Lemma add_notNaN (x y : number) :
  isFinite x = true -> isNaN y = false -> isNaN (add x y) = false.
Proof.
  destruct x as [[]|[]| |sx mx ex], y as [[]|[]| |sy my ey];
    simpl; try discriminate; try reflexivity.
  intros _ _. apply binary_normalize_notNaN.
Qed.

Lemma mul_notNaN (x : number) (s : bool) (m : positive) (e : Z) :
  isNaN x = false -> isNaN (mul x (S754_finite s m e)) = false.
Proof.
  destruct x as [sx|sx| |sx mx ex]; simpl; try discriminate; try reflexivity.
  intros _. eapply hasSign_notNaN, binary_round_aux_sign. lia.
Qed.

(** ** Finite results *)

Lemma fexp_eq (k : Z) : fexp prec emax k = Z.max (k - 53) (-1074).
Proof. reflexivity. Qed.

Lemma binary_round_aux_finite (sx : bool) (mx ex : Z) (lx : location) (D : Z) :
  0 <= mx -> Zdigits2 mx <= D ->
  Z.max (Z.max ex (fexp prec emax (D + ex)))
        (fexp prec emax (D + 1 + Z.max ex (fexp prec emax (D + ex))))
    <= emax - prec ->
  match binary_round_aux prec emax sx mx ex lx with
  | S754_zero s => s = sx
  | S754_finite s m e =>
      s = sx /\ Zdigits2 (Z.pos m) <= D + 1 /\ ex <= e /\
      e <= Z.max (Z.max ex (fexp prec emax (D + ex)))
                 (fexp prec emax (D + 1 + Z.max ex (fexp prec emax (D + ex))))
  | _ => False
  end.
Proof.
  intros Hm HD Hb.
  destruct (binary_round_aux_cases sx mx ex lx Hm)
    as (m2 & e2 & H2 & Hlo & Hhi & ->).
  assert (He : e2 <= Z.max (Z.max ex (fexp prec emax (D + ex)))
                 (fexp prec emax (D + 1 + Z.max ex (fexp prec emax (D + ex))))).
  { revert Hhi. rewrite ?fexp_eq. unfold prec, emax. lia. }
  destruct m2 as [|p|p]; try lia; [reflexivity|].
  destruct (Z.leb_spec e2 (emax - prec)); [|lia].
  repeat split; try lia.
  transitivity (Zdigits2 (mx + 1)).
  - apply Zdigits2_mono. lia.
  - pose proof (Zdigits2_succ mx Hm). lia.
Qed.

Lemma digits2_pos_iter_xO (p k : positive) :
  Z.pos (digits2_pos (Pos.iter xO p k)) = Z.pos (digits2_pos p) + Z.pos k.
Proof.
  induction k as [|k IH] using Pos.peano_ind.
  - simpl. lia.
  - rewrite Pos.iter_succ. simpl digits2_pos. lia.
Qed.

(** A count below [2^53] is a finite Number. *)
Lemma ofZ_finite (n : Z) :
  0 <= n < 2 ^ 53 ->
  match ofZ n with
  | S754_zero s => s = false
  | S754_finite s m e =>
      s = false /\ Zdigits2 (Z.pos m) <= 54 /\ -52 <= e <= 1
  | _ => False
  end.
Proof.
  intros [Hn Hb]. destruct n as [|p|p]; try lia; [reflexivity|].
  unfold ofZ, binary_normalize, binary_round.
  assert (Hd : 1 <= Z.pos (digits2_pos p) <= 53).
  { split; [lia|]. apply (Zdigits2_lt_pow2 (Z.pos p) 53). lia. }
  replace (fexp prec emax (Z.pos (digits2_pos p) + 0))
    with (Z.pos (digits2_pos p) - 53)
    by (rewrite ?fexp_eq; unfold prec, emax; lia).
  unfold shl_align.
  destruct (Z.pos (digits2_pos p) - 53 - 0) as [|k|k] eqn:E; try lia.
  - assert (H := binary_round_aux_finite false (Z.pos p) 0 loc_Exact 53).
    simpl Zdigits2 in H.
    specialize (H Hn (proj2 Hd)). 
    assert (Hx : Z.max (Z.max 0 (fexp prec emax (53 + 0)))
      (fexp prec emax (53 + 1 + Z.max 0 (fexp prec emax (53 + 0)))) <=
    emax - prec) by (vm_compute; discriminate).
    specialize (H Hx).
    destruct (binary_round_aux prec emax false (Z.pos p) 0 loc_Exact);
      auto. destruct H as (-> & H1 & H2 & H3). simpl Zdigits2. revert H3.
    rewrite ?fexp_eq. unfold prec, emax. lia.
  - pose proof (digits2_pos_iter_xO p k) as Hk.
    assert (H := binary_round_aux_finite false (Z.pos (Pos.iter xO p k))
                  (Z.pos (digits2_pos p) - 53) loc_Exact 53).
    simpl Zdigits2 in H.
    assert (Hx : Z.pos (digits2_pos (Pos.iter xO p k)) <= 53) by lia.
    specialize (H (Pos2Z.is_nonneg _) Hx).
    assert (Hy : Z.max (Z.max (Z.pos (digits2_pos p) - 53)
                   (fexp prec emax (53 + (Z.pos (digits2_pos p) - 53))))
      (fexp prec emax (53 + 1 + Z.max (Z.pos (digits2_pos p) - 53)
                   (fexp prec emax (53 + (Z.pos (digits2_pos p) - 53))))) <=
    emax - prec) by (rewrite ?fexp_eq; unfold prec, emax; lia).
    specialize (H Hy).
    destruct (binary_round_aux prec emax false (Z.pos (Pos.iter xO p k))
                (Z.pos (digits2_pos p) - 53) loc_Exact);
      auto. destruct H as (-> & H1 & H2 & H3). simpl Zdigits2. revert H3.
    rewrite ?fexp_eq. unfold prec, emax. lia.
Qed.

(** The value of a literal of the source, computed once. *)
Ltac lit_value s :=
  let v := eval vm_compute in (lit s) in
  replace (lit s) with v by (vm_compute; reflexivity).

Ltac lit_values :=
  repeat match goal with
         | |- context [lit ?s] => lit_value s
         end.

(** [count * 2000] is finite and not negative for a count below [2^53]. *)
Lemma deduction_finite (n : Z) :
  0 <= n < 2 ^ 53 ->
  isFinite (mul (ofZ n) (lit "2000")) = true.
Proof.
  intros Hn. pose proof (ofZ_finite n Hn) as H. lit_values.
  destruct (ofZ n) as [s|s| |s m e]; try contradiction; [reflexivity|].
  destruct H as (-> & Hd & He). unfold mul, SFmul. rewrite xorb_false_r.
  assert (Hm : Zdigits2 (Z.pos (m * 8796093022208000)) <= 107).
  { pose proof (Zdigits2_mul (Z.pos m) 8796093022208000).
    change (Zdigits2 8796093022208000) with 53 in *.
    rewrite Pos2Z.inj_mul. lia. }
  assert (H := binary_round_aux_finite false
                (Z.pos (m * 8796093022208000)) (e + -42) loc_Exact 107
                ltac:(lia) Hm
                ltac:(rewrite ?fexp_eq; unfold prec, emax; lia)).
  destruct (binary_round_aux prec emax false
              (Z.pos (m * 8796093022208000)) (e + -42) loc_Exact);
    try reflexivity; contradiction.
Qed.

Lemma deduction_sign (n : Z) :
  0 <= n -> hasSign false (mul (ofZ n) (lit "2000")) = true.
Proof. intros Hn. lit_values. apply mul_sign, ofZ_nonneg, Hn. Qed.

(** ** Valid results *)

Lemma Zdigits2_eq_0 (z : Z) : Zdigits2 z = 0 -> z = 0.
Proof. destruct z; simpl; [reflexivity|lia|lia]. Qed.

Lemma shr_1_div2 (mrs : shr_record) :
  0 <= shr_m mrs -> shr_m (shr_1 mrs) = shr_m mrs / 2.
Proof.
  destruct mrs as [m r s]. simpl. intros Hm.
  rewrite <- Z.div2_div. destruct m as [|[p|p|]|p]; simpl; lia || reflexivity.
Qed.

Lemma pow2_xO (p : positive) : 2 ^ Z.pos p~0 = 2 ^ Z.pos p * 2 ^ Z.pos p.
Proof.
  rewrite (Pos2Z.inj_xO p). replace (2 * Z.pos p) with (Z.pos p + Z.pos p) by lia.
  now rewrite Z.pow_add_r by lia.
Qed.

Lemma pow2_xI (p : positive) : 2 ^ Z.pos p~1 = 2 * (2 ^ Z.pos p * 2 ^ Z.pos p).
Proof.
  rewrite (Pos2Z.inj_xI p).
  replace (2 * Z.pos p + 1) with (1 + (Z.pos p + Z.pos p)) by lia.
  now rewrite !Z.pow_add_r by lia.
Qed.

Lemma iter_shr_1_div (p : positive) (mrs : shr_record) :
  0 <= shr_m mrs ->
  shr_m (iter_pos shr_1 p mrs) = shr_m mrs / 2 ^ Z.pos p.
Proof.
  assert (Hpow : forall q, 0 < 2 ^ Z.pos q)
    by (intros q; apply Z.pow_pos_nonneg; lia).
  revert mrs. induction p as [p IH|p IH|]; intros mrs Hm; simpl iter_pos.
  - pose proof (shr_1_bounds mrs Hm) as H1.
    pose proof (iter_shr_1_bounds p _ (proj1 H1)) as H2.
    rewrite IH by lia. rewrite IH by lia. rewrite shr_1_div2 by lia.
    pose proof (Hpow p).
    rewrite !Z.div_div by lia. now rewrite pow2_xI.
  - pose proof (iter_shr_1_bounds p mrs Hm) as H2.
    rewrite IH by lia. rewrite IH by lia. pose proof (Hpow p).
    rewrite !Z.div_div by lia. now rewrite pow2_xO.
  - rewrite shr_1_div2 by lia. reflexivity.
Qed.

Lemma Zdigits2_div_pow2 (m n : Z) :
  0 <= m -> 0 <= n -> Zdigits2 (m / 2 ^ n) = Z.max 0 (Zdigits2 m - n).
Proof.
  intros Hm Hn. destruct (Z.eq_dec m 0) as [->|Hm0].
  - rewrite Z.div_0_l by (apply Z.pow_nonzero; lia). simpl. lia.
  - rewrite (Zdigits2_log2 m) by lia.
    rewrite <- Z.shiftr_div_pow2 by lia.
    destruct (Z.lt_ge_cases (Z.log2 m) n) as [Hlt|Hge].
    + rewrite Z.shiftr_eq_0 by lia. simpl. lia.
    + assert (Hpos : 0 < Z.shiftr m n).
      { rewrite Z.shiftr_div_pow2 by lia.
        apply Z.div_str_pos. split; [apply Z.pow_pos_nonneg; lia|].
        apply Z.log2_le_pow2; lia. }
      rewrite Zdigits2_log2 by lia. rewrite Z.log2_shiftr by lia. lia.
Qed.

(** What one alignment step of the rounding does, when the exponent is
    not above the canonical one. *)
Lemma shr_fexp_canonical (m e : Z) (l : location) :
  0 <= m -> e <= fexp prec emax (Zdigits2 m + e) ->
  snd (shr_fexp prec emax m e l) = fexp prec emax (Zdigits2 m + e) /\
  0 <= shr_m (fst (shr_fexp prec emax m e l)) <= m /\
  (shr_m (fst (shr_fexp prec emax m e l)) = 0 /\
   Zdigits2 m + e <= fexp prec emax (Zdigits2 m + e) \/
   Zdigits2 (shr_m (fst (shr_fexp prec emax m e l)))
   + snd (shr_fexp prec emax m e l) = Zdigits2 m + e).
Proof.
  intros Hm He.
  pose proof (shr_fexp_bounds m e l Hm) as [Hb Hs].
  split; [lia|]. split; [exact Hb|].
  rewrite Hs. unfold shr_fexp, shr.
  destruct (fexp prec emax (Zdigits2 m + e) - e) as [|p|p] eqn:E; try lia.
  - simpl. rewrite shr_record_of_loc_m. right. lia.
  - simpl fst. rewrite iter_shr_1_div by (rewrite shr_record_of_loc_m; lia).
    rewrite shr_record_of_loc_m.
    pose proof (Zdigits2_div_pow2 m (Z.pos p) Hm ltac:(lia)) as Hd.
    destruct (Z.le_gt_cases (Zdigits2 m) (Z.pos p)).
    + left. split; [apply Zdigits2_eq_0|]; lia.
    + right. lia.
Qed.

(** A rounded result is a valid binary64 value when the rounding starts
    from an exponent that is not above the canonical one. *)
Lemma binary_round_aux_valid (sx : bool) (mx ex : Z) (lx : location) :
  0 < mx -> ex <= fexp prec emax (Zdigits2 mx + ex) ->
  valid_binary prec emax (binary_round_aux prec emax sx mx ex lx) = true.
Proof.
  intros Hm He. unfold binary_round_aux.
  pose proof (shr_fexp_canonical mx ex lx ltac:(lia) He) as (E1 & B1 & C1).
  destruct (shr_fexp prec emax mx ex lx) as [mrs1 e1]. simpl in E1, B1, C1.
  set (m1 := round_nearest_even (shr_m mrs1) (loc_of_shr_record mrs1)).
  pose proof (round_nearest_even_bounds (shr_m mrs1) (loc_of_shr_record mrs1)
                (proj1 B1)) as Hr. fold m1 in Hr.
  assert (He1 : e1 <= fexp prec emax (Zdigits2 m1 + e1)).
  { destruct C1 as [[Z1 U1] | D1].
    - assert (Hmin : e1 = -1074).
      { revert E1 U1. rewrite !fexp_eq. lia. }
      rewrite fexp_eq. lia.
    - pose proof (Zdigits2_mono (shr_m mrs1) m1 ltac:(lia)).
      rewrite E1 at 1. rewrite <- D1. apply fexp_mono. lia. }
  pose proof (shr_fexp_canonical m1 e1 loc_Exact ltac:(lia) He1) as (E2 & B2 & C2).
  destruct (shr_fexp prec emax m1 e1 loc_Exact) as [mrs2 e2].
  simpl in E2, B2, C2.
  destruct (shr_m mrs2) as [|m2|m2] eqn:Em2; try reflexivity; try lia.
  destruct (Z.leb_spec e2 (emax - prec)) as [Hle|Hgt]; [|reflexivity].
  simpl. unfold bounded, canonical_mantissa.
  destruct C2 as [[C2 _]|C2]; [discriminate|]. simpl Zdigits2 in C2.
  rewrite C2, <- E2, Z.eqb_refl. simpl. now apply Z.leb_le.
Qed.

Lemma binary_round_valid (sx : bool) (mx : positive) (ex : Z) :
  valid_binary prec emax (binary_round prec emax sx mx ex) = true.
Proof.
  unfold binary_round, shl_align.
  destruct (fexp prec emax (Z.pos (digits2_pos mx) + ex) - ex) as [|d|d] eqn:E.
  - apply binary_round_aux_valid; simpl Zdigits2; lia.
  - apply binary_round_aux_valid; simpl Zdigits2; lia.
  - apply binary_round_aux_valid; [lia|]. simpl Zdigits2.
    rewrite digits2_pos_iter_xO.
    replace (Z.pos (digits2_pos mx) + Z.pos d
             + fexp prec emax (Z.pos (digits2_pos mx) + ex))
      with (Z.pos (digits2_pos mx) + ex) by lia.
    lia.
Qed.

Lemma binary_normalize_valid (m e : Z) (s : bool) :
  valid_binary prec emax (binary_normalize prec emax m e s) = true.
Proof. destruct m; simpl; auto using binary_round_valid. Qed.

Lemma valid_finite (s : bool) (m : positive) (e : Z) :
  valid_binary prec emax (S754_finite s m e) = true ->
  (Zdigits2 (Z.pos m) = 53 /\ -1074 <= e <= 971) \/
  (Zdigits2 (Z.pos m) < 53 /\ e = -1074).
Proof.
  simpl. unfold bounded, canonical_mantissa. intros H.
  apply andb_prop in H. destruct H as [Hc Hb].
  apply Z.eqb_eq in Hc. apply Z.leb_le in Hb.
  revert Hc Hb. rewrite fexp_eq. unfold emax, prec. lia.
Qed.

Lemma ofZ_valid (n : Z) : valid_binary prec emax (ofZ n) = true.
Proof. apply binary_normalize_valid. Qed.

Lemma add_valid (x y : number) :
  valid_binary prec emax x = true -> valid_binary prec emax y = true ->
  valid_binary prec emax (add x y) = true.
Proof.
  intros Hx Hy.
  destruct x as [[]|[]| |sx mx ex], y as [[]|[]| |sy my ey];
    try reflexivity; try exact Hx; try exact Hy.
  apply binary_normalize_valid.
Qed.

Lemma sub_valid (x y : number) :
  valid_binary prec emax x = true -> valid_binary prec emax y = true ->
  valid_binary prec emax (sub x y) = true.
Proof.
  intros Hx Hy.
  destruct x as [[]|[]| |sx mx ex], y as [[]|[]| |sy my ey];
    try reflexivity; try exact Hx; try exact Hy.
  apply binary_normalize_valid.
Qed.

Lemma mul_valid (x y : number) :
  valid_binary prec emax x = true -> valid_binary prec emax y = true ->
  valid_binary prec emax (mul x y) = true.
Proof.
  intros Hx Hy.
  destruct x as [[]|[]| |sx mx ex], y as [[]|[]| |sy my ey];
    try reflexivity.
  apply valid_finite in Hx, Hy. unfold mul, SFmul.
  apply binary_round_aux_valid; [lia|].
  pose proof (Z.log2_mul_below (Z.pos mx) (Z.pos my) ltac:(lia) ltac:(lia)) as Hl.
  rewrite Pos2Z.inj_mul. rewrite (Zdigits2_log2 (Z.pos mx * Z.pos my)) by lia.
  rewrite (Zdigits2_log2 (Z.pos mx)) in Hx by lia.
  rewrite (Zdigits2_log2 (Z.pos my)) in Hy by lia.
  pose proof (Z.log2_nonneg (Z.pos mx)). pose proof (Z.log2_nonneg (Z.pos my)).
  rewrite fexp_eq. lia.
Qed.

(** ** The sign of a difference *)

Lemma binary_round_aux_nonzero (sx : bool) (mx ex : Z) (lx : location) :
  0 < mx -> ex <= fexp prec emax (Zdigits2 mx + ex) ->
  -1074 < Zdigits2 mx + ex ->
  match binary_round_aux prec emax sx mx ex lx with
  | S754_finite s _ _ | S754_infinity s => s = sx
  | _ => False
  end.
Proof.
  intros Hm He Hd. unfold binary_round_aux.
  pose proof (shr_fexp_canonical mx ex lx ltac:(lia) He) as (E1 & B1 & C1).
  destruct (shr_fexp prec emax mx ex lx) as [mrs1 e1]. simpl in E1, B1, C1.
  set (m1 := round_nearest_even (shr_m mrs1) (loc_of_shr_record mrs1)).
  pose proof (round_nearest_even_bounds (shr_m mrs1) (loc_of_shr_record mrs1)
                (proj1 B1)) as Hr. fold m1 in Hr.
  destruct C1 as [[_ U1] | D1]; [revert U1; rewrite fexp_eq; lia|].
  pose proof (Zdigits2_mono (shr_m mrs1) m1 ltac:(lia)) as Hmono.
  assert (He1 : e1 <= fexp prec emax (Zdigits2 m1 + e1)).
  { rewrite E1 at 1. rewrite <- D1. apply fexp_mono. lia. }
  pose proof (shr_fexp_canonical m1 e1 loc_Exact ltac:(lia) He1) as (E2 & B2 & C2).
  destruct (shr_fexp prec emax m1 e1 loc_Exact) as [mrs2 e2].
  simpl in E2, B2, C2.
  destruct C2 as [[_ U2] | D2]; [revert U2; rewrite fexp_eq; lia|].
  destruct (shr_m mrs2) as [|m2|m2] eqn:Em2; try lia.
  - simpl Zdigits2 in D2. revert D2 E2. rewrite fexp_eq. lia.
  - destruct (e2 <=? emax - prec); reflexivity.
Qed.

Lemma binary_round_nonzero (sx : bool) (mx : positive) (ex : Z) :
  -1074 <= ex ->
  match binary_round prec emax sx mx ex with
  | S754_finite s _ _ | S754_infinity s => s = sx
  | _ => False
  end.
Proof.
  intros Hex. unfold binary_round, shl_align.
  destruct (fexp prec emax (Z.pos (digits2_pos mx) + ex) - ex) as [|d|d] eqn:E.
  - apply binary_round_aux_nonzero; simpl Zdigits2; lia.
  - apply binary_round_aux_nonzero; simpl Zdigits2; lia.
  - apply binary_round_aux_nonzero; [lia| |]; simpl Zdigits2;
      rewrite digits2_pos_iter_xO.
    + replace (Z.pos (digits2_pos mx) + Z.pos d
               + fexp prec emax (Z.pos (digits2_pos mx) + ex))
        with (Z.pos (digits2_pos mx) + ex) by lia.
      lia.
    + lia.
Qed.

Lemma iter_xO_value (m d : positive) :
  Z.pos (Pos.iter xO m d) = Z.pos m * 2 ^ Z.pos d.
Proof.
  induction d as [|d IH] using Pos.peano_ind.
  - simpl. lia.
  - rewrite Pos.iter_succ, Pos2Z.inj_succ, Z.pow_succ_r by lia.
    rewrite (Pos2Z.inj_xO (Pos.iter xO m d)), IH. lia.
Qed.

Lemma shl_align_value (m : positive) (e e' : Z) :
  e' <= e -> Z.pos (fst (shl_align m e e')) = Z.pos m * 2 ^ (e - e').
Proof.
  intros He. unfold shl_align.
  destruct (e' - e) as [|d|d] eqn:E; try lia; simpl fst.
  - replace (e - e') with 0 by lia. simpl. lia.
  - rewrite iter_xO_value. f_equal. f_equal. lia.
Qed.

Lemma digits_53_bounds (m : positive) :
  Zdigits2 (Z.pos m) = 53 -> 2 ^ 52 <= Z.pos m < 2 ^ 53.
Proof.
  rewrite Zdigits2_log2 by lia. intros H.
  pose proof (Z.log2_spec (Z.pos m) ltac:(lia)) as Hs.
  replace (Z.log2 (Z.pos m)) with 52 in Hs by lia. exact Hs.
Qed.

Lemma digits_le_53_bound (m : positive) :
  Zdigits2 (Z.pos m) <= 53 -> Z.pos m < 2 ^ 53.
Proof.
  rewrite Zdigits2_log2 by lia. intros H.
  apply Z.log2_lt_pow2; lia.
Qed.

(** Of two valid mantissas, the one with the smaller exponent is smaller
    once both are aligned. *)
Lemma aligned_lt (s1 s2 : bool) (m1 m2 : positive) (e1 e2 : Z) :
  valid_binary prec emax (S754_finite s1 m1 e1) = true ->
  valid_binary prec emax (S754_finite s2 m2 e2) = true ->
  e1 < e2 -> Z.pos m1 < Z.pos m2 * 2 ^ (e2 - e1).
Proof.
  intros H1 H2 He. apply valid_finite in H1, H2.
  assert (B1 : Z.pos m1 < 2 ^ 53) by (apply digits_le_53_bound; lia).
  assert (B2 : 2 ^ 52 <= Z.pos m2) by (apply digits_53_bounds; lia).
  assert (P : 2 ^ 1 <= 2 ^ (e2 - e1)) by (apply Z.pow_le_mono_r; lia).
  change (2 ^ 1) with 2 in P. change (2 ^ 53) with (2 ^ 52 * 2) in B1. nia.
Qed.

(** For valid Numbers, [x < y] makes [x - y] negative. *)
Lemma sub_negative (x y : number) :
  valid_binary prec emax x = true -> valid_binary prec emax y = true ->
  lt x y = true -> lt (sub x y) zero = true.
Proof.
  intros Hx Hy Hlt.
  destruct x as [[]|[]| |sx mx ex], y as [[]|[]| |sy my ey];
    try discriminate; try reflexivity;
    try (destruct sy; try discriminate; reflexivity);
    try (destruct sx; try discriminate; reflexivity).
  pose proof (valid_finite _ _ _ Hx) as Vx.
  pose proof (valid_finite _ _ _ Hy) as Vy.
  unfold sub, SFsub.
  set (ez := Z.min ex ey).
  rewrite (shl_align_value mx ex ez) by (subst ez; lia).
  rewrite (shl_align_value my ey ez) by (subst ez; lia).
  set (z := cond_Zopp sx (Z.pos mx * 2 ^ (ex - ez))
            - cond_Zopp sy (Z.pos my * 2 ^ (ey - ez))).
  assert (Px : 0 < 2 ^ (ex - ez)) by (apply Z.pow_pos_nonneg; subst ez; lia).
  assert (Py : 0 < 2 ^ (ey - ez)) by (apply Z.pow_pos_nonneg; subst ez; lia).
  assert (Hz : z < 0).
  { apply SFltb_key in Hlt. destruct Hlt as (_ & _ & Hk).
    subst z. destruct sx, sy; simpl in Hk; unfold cond_Zopp.
    - (* both negative *)
      assert (Hc : ey < ex \/ (ex = ey /\ Z.pos my < Z.pos mx)) by lia.
      destruct Hc as [Hc | [-> Hc]].
      + pose proof (aligned_lt _ _ _ _ _ _ Hy Hx Hc).
        subst ez. rewrite Z.min_r by lia.
        replace (ey - ey) with 0 by lia. simpl (2 ^ 0). lia.
      + subst ez. rewrite Z.min_id. replace (ey - ey) with 0 by lia.
        simpl (2 ^ 0). lia.
    - nia.
    - lia.
    - assert (Hc : ex < ey \/ (ex = ey /\ Z.pos mx < Z.pos my)) by lia.
      destruct Hc as [Hc | [-> Hc]].
      + pose proof (aligned_lt _ _ _ _ _ _ Hx Hy Hc).
        subst ez. rewrite Z.min_l by lia.
        replace (ex - ex) with 0 by lia. simpl (2 ^ 0). lia.
      + subst ez. rewrite Z.min_id. replace (ey - ey) with 0 by lia.
        simpl (2 ^ 0). lia. }
  destruct z as [|p|p]; try lia. simpl binary_normalize.
  pose proof (binary_round_nonzero true p ez ltac:(subst ez; lia)) as Hr.
  destruct (binary_round prec emax true p ez); try contradiction;
    subst; reflexivity.
Qed.

Create HintDb numbers.
#[local] Hint Resolve add_valid sub_valid mul_valid ofZ_valid : numbers.

(* ================================================================== *)
(** * Properties of the extraction helpers *)
(* ================================================================== *)

Section HelperFacts.
Context {pattern : Type}.
Variable matchText : pattern -> jsstring -> option RegExp.matchArray.

Lemma captured_some (m : option RegExp.matchArray) (g : jsstring) :
  Dashboard.captured m = Some g <->
  exists arr, m = Some arr /\ Dashboard.group1 arr = Some g /\ g <> [].
Proof.
  unfold Dashboard.captured. split.
  - destruct m as [arr|]; [|discriminate].
    destruct (Dashboard.group1 arr) as [g'|] eqn:Hg; [|discriminate].
    destruct g' as [|c g']; simpl; [discriminate|].
    intros H. injection H as <-. exists arr.
    split; [reflexivity|]. split; [exact Hg|discriminate].
  - intros (arr & -> & -> & Hg). destruct g; [contradiction|reflexivity].
Qed.

Lemma captured_none (m : option RegExp.matchArray) :
  Dashboard.captured m = None <->
  m = None \/
  exists arr, m = Some arr /\
    (Dashboard.group1 arr = None \/ Dashboard.group1 arr = Some []).
Proof.
  unfold Dashboard.captured. split.
  - destruct m as [arr|]; [|now left]. right. exists arr. split; [reflexivity|].
    destruct (Dashboard.group1 arr) as [[|c g]|]; simpl;
      [now right | discriminate | now left].
  - intros [-> | (arr & -> & [-> | ->])]; reflexivity.
Qed.

Lemma extractField_skip (text : jsstring) (p : pattern) (rest : list pattern) :
  Dashboard.captured (matchText p text) = None ->
  Dashboard.extractField matchText text (p :: rest) =
  Dashboard.extractField matchText text rest.
Proof. intros H. simpl. now rewrite H. Qed.

Lemma extractField_take (text : jsstring) (p : pattern) (rest : list pattern)
    (g : jsstring) :
  Dashboard.captured (matchText p text) = Some g ->
  Dashboard.extractField matchText text (p :: rest) = Some (trim g).
Proof. intros H. simpl. now rewrite H. Qed.

(** Both helpers stop at the first rule whose capture is kept. *)
Lemma extractField_first (text : jsstring) (patterns : list pattern)
    (v : jsstring) :
  Dashboard.extractField matchText text patterns = Some v ->
  exists skipped p rest g,
    patterns = skipped ++ p :: rest /\
    Forall (fun q => Dashboard.captured (matchText q text) = None) skipped /\
    Dashboard.captured (matchText p text) = Some g /\ v = trim g.
Proof.
  induction patterns as [|p rest IH]; simpl; [discriminate|].
  destruct (Dashboard.captured (matchText p text)) as [g|] eqn:Hc.
  - intros H. injection H as <-. exists [], p, rest, g. auto.
  - intros H. destruct (IH H) as (sk & q & rest' & g & -> & Hsk & Hq & ->).
    exists (p :: sk), q, rest', g. repeat split; auto.
Qed.

Lemma extractMoneyField_first (text : jsstring) (patterns : list pattern)
    (v : jsstring) :
  Dashboard.extractMoneyField matchText text patterns = Some v ->
  exists skipped p rest g,
    patterns = skipped ++ p :: rest /\
    Forall (fun q => Dashboard.captured (matchText q text) = None) skipped /\
    Dashboard.captured (matchText p text) = Some g /\
    v = Dashboard.formatAmount g.
Proof.
  induction patterns as [|p rest IH]; simpl; [discriminate|].
  destruct (Dashboard.captured (matchText p text)) as [g|] eqn:Hc.
  - intros H. injection H as <-. exists [], p, rest, g. auto.
  - intros H. destruct (IH H) as (sk & q & rest' & g & -> & Hsk & Hq & ->).
    exists (p :: sk), q, rest', g. repeat split; auto.
Qed.

Lemma extractField_none (text : jsstring) (patterns : list pattern) :
  (forall p, In p patterns -> matchText p text = None) ->
  Dashboard.extractField matchText text patterns = None.
Proof.
  induction patterns as [|p rest IH]; intros H; [reflexivity|].
  simpl. rewrite (H p (or_introl eq_refl)). simpl.
  apply IH. intros q Hq. apply H. now right.
Qed.
End HelperFacts.

(** ** Money formatting *)

Lemma includes_removeAll (c : N) (s : jsstring) :
  includes c (removeAll c s) = false.
Proof.
  unfold includes, removeAll. induction s as [|x s IH]; [reflexivity|].
  cbn [filter]. destruct (N.eqb x c) eqn:E; cbn [negb existsb]; [exact IH|].
  rewrite N.eqb_sym, E. exact IH.
Qed.

Lemma includes_app (c : N) (s t : jsstring) :
  includes c (s ++ t) = includes c s || includes c t.
Proof. apply existsb_app. Qed.

Lemma formatAmount_no_comma (g : jsstring) :
  includes comma (Dashboard.formatAmount g) = false.
Proof.
  unfold Dashboard.formatAmount.
  destruct (includes dot (removeAll comma g)).
  - apply includes_removeAll.
  - rewrite includes_app, includes_removeAll. reflexivity.
Qed.

Lemma afterDot_app (s t : jsstring) :
  includes dot s = false -> afterDot (s ++ dot :: t) = Some t.
Proof.
  unfold includes. induction s as [|x s IH]; cbn [existsb afterDot app].
  - now rewrite N.eqb_refl.
  - rewrite (N.eqb_sym dot x).
    destruct (N.eqb x dot); cbn [orb]; [discriminate|exact IH].
Qed.

Lemma formatAmount_whole (g : jsstring) :
  includes dot (removeAll comma g) = false ->
  Dashboard.formatAmount g = removeAll comma g ++ str ".00" /\
  hasTwoDecimals (Dashboard.formatAmount g) = true.
Proof.
  intros H. unfold Dashboard.formatAmount. rewrite H. split; [reflexivity|].
  unfold hasTwoDecimals. change (str ".00") with (dot :: str "00").
  rewrite (afterDot_app _ _ H). reflexivity.
Qed.

Lemma formatAmount_fraction (g : jsstring) :
  includes dot (removeAll comma g) = true ->
  Dashboard.formatAmount g = removeAll comma g.
Proof. intros H. unfold Dashboard.formatAmount. now rewrite H. Qed.

Lemma includes_dot_removeAll (g : jsstring) :
  includes dot (removeAll comma g) = includes dot g.
Proof.
  unfold includes, removeAll. induction g as [|x g IH]; [reflexivity|].
  cbn [filter existsb]. destruct (N.eqb x comma) eqn:E; cbn [negb existsb].
  - apply N.eqb_eq in E. subst x. exact IH.
  - now rewrite IH.
Qed.

(** ** [extractField] *)

(** C7: when no rule of the pattern list matches the text, [extractField]
    returns [null]; it is a total function, so nothing is raised. *)
Theorem extractField_absent_is_null :
  forall (pattern : Type)
         (matchText : pattern -> jsstring -> option RegExp.matchArray)
         (text : jsstring) (patterns : list pattern),
    (forall p, In p patterns -> matchText p text = None) ->
    Dashboard.extractField matchText text patterns = None.
Proof. intros. now apply extractField_none. Qed.

Lemma extractField_absent_is_null_witness :
  (forall p, In p Dashboard.employeeNamePatterns ->
             RegExp.exec p (str "lorem ipsum") = None) /\
  Dashboard.extractField RegExp.exec (str "lorem ipsum")
    Dashboard.employeeNamePatterns = None.
Proof.
  assert (H : forall p, In p Dashboard.employeeNamePatterns ->
                        RegExp.exec p (str "lorem ipsum") = None).
  { intros p [<- | [<- | [<- | []]]]; vm_compute; reflexivity. }
  split; [exact H|].
  exact (extractField_absent_is_null _ _ _ _ H).
Defined.

(** C3 fails in the code.  The guard of [extractField] tests the capture
    group as it was matched, and the group is trimmed only after the
    decision to return: a rule that does not match, or whose group is
    unmatched or the empty string, is skipped, and the first rule whose
    group is a non-empty string ends the search with that group trimmed,
    be it empty after trimming.  On [blankNameText] the first
    employee-name rule of the route matches with a group that holds one
    space: [extractField] returns from that rule, with the empty string,
    and never tries the second rule, which finds [John Smith]; the route
    then stores [Not found].  On the first line alone no rule has a group
    that is non-empty after trimming, and a value is returned all the
    same. *)
Theorem extractField_stops_at_blank_capture :
  (forall (pattern : Type)
          (matchText : pattern -> jsstring -> option RegExp.matchArray)
          (text : jsstring),
      Dashboard.extractField matchText text [] = None /\
      (forall p rest,
          matchText p text = None ->
          Dashboard.extractField matchText text (p :: rest) =
          Dashboard.extractField matchText text rest) /\
      (forall p rest arr,
          matchText p text = Some arr ->
          Dashboard.group1 arr = None \/ Dashboard.group1 arr = Some [] ->
          Dashboard.extractField matchText text (p :: rest) =
          Dashboard.extractField matchText text rest) /\
      (forall p rest arr g,
          matchText p text = Some arr ->
          Dashboard.group1 arr = Some g -> g <> [] ->
          Dashboard.extractField matchText text (p :: rest) = Some (trim g)))
  /\
  (exists p rest g,
      Dashboard.employeeNamePatterns = p :: rest /\
      option_map Dashboard.group1 (RegExp.exec p blankNameText)
        = Some (Some g) /\
      g = str " " /\ trim g = [] /\
      Dashboard.extractField RegExp.exec blankNameText (p :: rest) = Some [] /\
      Dashboard.extractField RegExp.exec blankNameText rest =
        Some (str "John Smith")) /\
  (forall now fileName,
      get "employeeName" (Dashboard.extractedData blankNameText now fileName)
      = VString (str "Not found")) /\
  Dashboard.extractField RegExp.exec (str "Employee's name: " ++ [10%N])
    Dashboard.employeeNamePatterns = Some [] /\
  Forall (fun p =>
            match RegExp.exec p (str "Employee's name: " ++ [10%N]) with
            | Some arr =>
                match Dashboard.group1 arr with
                | Some g => trim g = []
                | None => True
                end
            | None => True
            end)
         Dashboard.employeeNamePatterns.
Proof.
  split; [|split; [|split; [|split]]].
  - intros pattern matchText text. split; [reflexivity|]. split; [|split].
    + intros p rest Hm. apply extractField_skip.
      apply captured_none. now left.
    + intros p rest arr Hm Hg. apply extractField_skip.
      apply captured_none. right. exists arr. auto.
    + intros p rest arr g Hm Hg Hne. apply extractField_take.
      apply captured_some. exists arr. auto.
  - eexists _, _, _. split; [reflexivity|].
    split; [vm_compute; reflexivity|].
    repeat split; vm_compute; reflexivity.
  - intros now fileName. vm_compute. reflexivity.
  - vm_compute. reflexivity.
  - repeat constructor; vm_compute; auto.
Qed.

(** ** [extractMoneyField] *)

(** C2, as stated, fails: on the text [Wages: 1,234.5] the third wages
    rule captures [1,234.5], which has a thousands separator; the helper
    returns [1234.5], with one digit after the point. *)
Lemma extractMoneyField_keeps_short_fraction :
  exists skipped p rest g,
    Dashboard.box1Patterns = skipped ++ p :: rest /\
    Forall (fun q => Dashboard.captured (RegExp.exec q (str "Wages: 1,234.5")) = None)
           skipped /\
    Dashboard.captured (RegExp.exec p (str "Wages: 1,234.5")) = Some g /\
    g = str "1,234.5" /\ includes comma g = true /\
    Dashboard.extractMoneyField RegExp.exec (str "Wages: 1,234.5")
      Dashboard.box1Patterns = Some (str "1234.5") /\
    hasTwoDecimals (str "1234.5") = false.
Proof.
  exists (firstn 2 Dashboard.box1Patterns), (nth 2 Dashboard.box1Patterns RegExp.Eps),
         [], (str "1,234.5").
  split; [reflexivity|]. split.
  - repeat constructor; vm_compute; reflexivity.
  - repeat split; vm_compute; reflexivity.
Qed.

(** C2, amended: a string returned by [extractMoneyField] is the capture
    of the first rule whose group is a non-empty string, with every comma
    removed.  When the capture has no decimal point, [.00] is appended, and
    the result then has exactly one point with exactly two digits after it;
    when the capture has a point, the result is the capture without its
    commas, whatever follows the point. *)
Theorem extractMoneyField_normalized :
  forall (pattern : Type)
         (matchText : pattern -> jsstring -> option RegExp.matchArray)
         (text : jsstring) (patterns : list pattern) (s : jsstring),
    Dashboard.extractMoneyField matchText text patterns = Some s ->
    exists skipped p rest g,
      patterns = skipped ++ p :: rest /\
      Forall (fun q => Dashboard.captured (matchText q text) = None) skipped /\
      Dashboard.captured (matchText p text) = Some g /\
      includes comma s = false /\
      (includes dot g = false ->
       s = removeAll comma g ++ str ".00" /\ hasTwoDecimals s = true) /\
      (includes dot g = true -> s = removeAll comma g).
Proof.
  intros pattern matchText text patterns s H.
  destruct (extractMoneyField_first _ _ _ _ H)
    as (sk & p & rest & g & E & Hsk & Hc & ->).
  exists sk, p, rest, g. repeat (split; [assumption|]).
  split; [apply formatAmount_no_comma|]. split; intros Hd.
  - apply formatAmount_whole. now rewrite includes_dot_removeAll.
  - apply formatAmount_fraction. now rewrite includes_dot_removeAll.
Qed.

Lemma extractMoneyField_normalized_witness :
  Dashboard.extractMoneyField RegExp.exec (str "Box 1: $12,345 paid")
    Dashboard.box1Patterns = Some (str "12345.00") /\
  exists skipped p rest g,
    Dashboard.box1Patterns = skipped ++ p :: rest /\
    Forall (fun q => Dashboard.captured
                       (RegExp.exec q (str "Box 1: $12,345 paid")) = None)
           skipped /\
    Dashboard.captured (RegExp.exec p (str "Box 1: $12,345 paid")) = Some g /\
    includes comma (str "12345.00") = false /\
    (includes dot g = false ->
     str "12345.00" = removeAll comma g ++ str ".00" /\
     hasTwoDecimals (str "12345.00") = true) /\
    (includes dot g = true -> str "12345.00" = removeAll comma g).
Proof.
  assert (H : Dashboard.extractMoneyField RegExp.exec (str "Box 1: $12,345 paid")
                Dashboard.box1Patterns = Some (str "12345.00"))
    by (vm_compute; reflexivity).
  split; [exact H|].
  exact (extractMoneyField_normalized _ _ _ _ _ H).
Defined.

(* ================================================================== *)
(** * Properties of the tax calculation *)
(* ================================================================== *)

Lemma bracketTax_notNaN (t : number) : isNaN (bracketTax t) = false.
Proof.
  unfold bracketTax. destruct (gt t (lit "0")) eqn:Hpos; [|reflexivity].
  apply lt_not_NaN in Hpos. destruct Hpos as [_ Ht].
  lit_values.
  repeat match goal with |- context [if ?b then _ else _] => destruct b end;
    repeat first [ apply mul_notNaN
                 | apply add_notNaN; [reflexivity|]
                 | apply sub_notNaN; [|reflexivity]
                 | exact Ht ].
Qed.

Lemma owed_of_nonneg (x : number) :
  hasSign false x = true ->
  hasSign false (div (Math_round (mul x (lit "100"))) (lit "100")) = true.
Proof.
  intros H. lit_values. now apply div_sign, Math_round_sign, mul_sign.
Qed.

Lemma orZero_valid (v : option number) :
  (forall x, v = Some x -> valid_binary prec emax x = true) ->
  valid_binary prec emax (orZero v) = true.
Proof.
  intros H. destruct v as [x|]; [|reflexivity]. simpl.
  destruct (JSNumber.truthy x); [now apply H|reflexivity].
Qed.

Lemma totalIncomeOf_valid (income : option incomeObject) :
  validIncome income -> valid_binary prec emax (totalIncomeOf income) = true.
Proof.
  unfold validIncome, totalIncomeOf.
  assert (H0 : valid_binary prec emax (lit "0") = true) by reflexivity.
  revert H0. generalize (lit "0"). generalize (orEmpty income).
  intros o. induction o as [|[k v] o IH]; intros acc Hacc H; [exact Hacc|].
  cbn [map snd fold_left]. apply IH.
  - apply add_valid; [exact Hacc|]. apply orZero_valid.
    intros x ->. apply (H k x), in_eq.
  - intros k' x Hin. apply (H k' x), in_cons, Hin.
Qed.

Lemma bracketTax_valid (t : number) :
  valid_binary prec emax t = true ->
  valid_binary prec emax (bracketTax t) = true.
Proof.
  intros Ht. unfold bracketTax.
  repeat match goal with |- context [if ?b then _ else _] => destruct b end;
    auto 6 with numbers.
Qed.

Lemma deduction_valid (n : Z) :
  valid_binary prec emax (mul (ofZ n) (lit "2000")) = true.
Proof. apply mul_valid; [apply ofZ_valid|reflexivity]. Qed.

Lemma owed_of_negative (y : number) :
  lt y zero = true ->
  div (Math_round (mul (Math_max (lit "0") y) (lit "100"))) (lit "100")
  = lit "0".
Proof.
  lit_values. destruct y as [[]|[]| |[] m e]; try discriminate;
    intros _; reflexivity.
Qed.

(** C5: the tax owed that the handler returns is never negative, for every
    income aggregate and every dependent count (a count of rows, below
    [2^53]); whenever the bracket tax less the deduction is negative the
    tax owed is zero, and so it is whenever the deduction exceeds the
    bracket tax. *)
Theorem taxOwed_nonnegative :
  forall (income : option incomeObject) (dependents : N),
    Z.of_N dependents < 2 ^ 53 ->
    let c := calculateTax income dependents in
    le (lit "0") (taxOwed c) = true /\
    (lt (sub (bracketTax (totalIncome c)) (dependentDeduction c)) (lit "0")
       = true ->
     taxOwed c = lit "0") /\
    (validIncome income ->
     gt (dependentDeduction c) (bracketTax (totalIncome c)) = true ->
     taxOwed c = lit "0").
Proof.
  intros income dependents Hn. cbv zeta.
  unfold calculateTax, calculate. cbn [taxOwed totalIncome dependentDeduction].
  set (t := totalIncomeOf income).
  set (d := mul (ofZ (Z.of_N dependents)) (lit "2000")).
  assert (Hd : isFinite d = true).
  { apply deduction_finite. lia. }
  assert (Hs : isNaN (sub (bracketTax t) d) = false).
  { apply sub_notNaN; [apply bracketTax_notNaN | exact Hd]. }
  split; [|split].
  - replace (lit "0") with zero by (vm_compute; reflexivity).
    apply hasSign_nonneg, owed_of_nonneg, Math_max_zero_sign, Hs.
  - replace (lit "0") with zero at 1 by (vm_compute; reflexivity).
    apply owed_of_negative.
  - intros Hv Hgt. apply owed_of_negative, sub_negative; [| |exact Hgt].
    + apply bracketTax_valid, totalIncomeOf_valid, Hv.
    + apply deduction_valid.
Qed.

Lemma taxOwed_nonnegative_witness :
  Z.of_N 2 < 2 ^ 53 /\
  let c := calculateTax (Some [("wages"%string, Some (lit "3000"))]) 2 in
  le (lit "0") (taxOwed c) = true /\
  (lt (sub (bracketTax (totalIncome c)) (dependentDeduction c)) (lit "0")
     = true ->
   taxOwed c = lit "0") /\
  (validIncome (Some [("wages"%string, Some (lit "3000"))]) ->
   gt (dependentDeduction c) (bracketTax (totalIncome c)) = true ->
   taxOwed c = lit "0").
Proof.
  split; [reflexivity|].
  exact (taxOwed_nonnegative (Some [("wages"%string, Some (lit "3000"))]) 2
           eq_refl).
Defined.

Lemma totalIncomeOf_zero (income : option incomeObject) :
  allZeroOrAbsent income -> totalIncomeOf income = zero.
Proof.
  unfold allZeroOrAbsent, totalIncomeOf.
  replace (lit "0") with zero by (vm_compute; reflexivity).
  generalize (orEmpty income).
  intros o. induction o as [|[k v] o IH]; intros H; [reflexivity|].
  cbn [map snd fold_left].
  replace (add zero (orZero v)) with zero.
  - apply IH. intros k' v' Hin. apply (H k' v'), in_cons, Hin.
  - destruct (H k v (in_eq _ _)) as [-> | [s ->]]; reflexivity.
Qed.

(** C6: when every category is zero or absent, the total income is zero,
    the tax owed is zero and the effective rate is zero, whatever the
    dependent count; and the rate is the constant zero, without a
    division, as soon as the total income is not positive. *)
Theorem zero_income_owes_nothing :
  forall (income : option incomeObject) (dependents : N),
    allZeroOrAbsent income ->
    let c := calculateTax income dependents in
    totalIncome c = lit "0" /\ taxOwed c = lit "0" /\
    effectiveRate c = lit "0" /\
    (forall t d, gt t (lit "0") = false ->
                 effectiveRate (calculate t d) = lit "0").
Proof.
  intros income dependents H. cbv zeta.
  unfold calculateTax. rewrite (totalIncomeOf_zero income H).
  unfold calculate. cbn [taxOwed totalIncome effectiveRate].
  repeat split.
  - replace (bracketTax zero) with zero by (vm_compute; reflexivity).
    pose proof (deduction_sign (Z.of_N dependents) ltac:(lia)) as Hd.
    destruct (mul (ofZ (Z.of_N dependents)) (lit "2000")) as [[]|[]| |[] m e];
      try discriminate; vm_compute; reflexivity.
  - intros t d Ht. now rewrite Ht.
Qed.

Lemma zero_income_owes_nothing_witness :
  allZeroOrAbsent
    (Some [("wages"%string, Some (lit "0")); ("interest"%string, None)]) /\
  let c := calculateTax
             (Some [("wages"%string, Some (lit "0")); ("interest"%string, None)])
             3 in
  totalIncome c = lit "0" /\ taxOwed c = lit "0" /\
  effectiveRate c = lit "0" /\
  (forall t d, gt t (lit "0") = false ->
               effectiveRate (calculate t d) = lit "0").
Proof.
  assert (H : allZeroOrAbsent
    (Some [("wages"%string, Some (lit "0")); ("interest"%string, None)])).
  { unfold allZeroOrAbsent. cbn [In orEmpty].
    intros k v [E | [E | []]]; injection E as _ <-.
    - right. exists false. reflexivity.
    - now left. }
  split; [exact H|].
  exact (zero_income_owes_nothing _ 3 H).
Defined.

(** C1: for a total income [t > 0] the tax before the dependent deduction
    is the bracket formula of the reference table: [t * 0.10] up to 10275,
    [1027.50 + (t - 10275) * 0.12] up to 41775,
    [4807.50 + (t - 41775) * 0.22] up to 89450 and
    [15213.50 + (t - 89450) * 0.24] above; at 10275 exactly it is 1027.50,
    the boundary belonging to the lower bracket. *)
Theorem bracketTax_piecewise :
  forall t : number,
    gt t (lit "0") = true ->
    (le t (lit "10275") = true ->
     bracketTax t = mul t (lit "0.10")) /\
    (gt t (lit "10275") = true -> le t (lit "41775") = true ->
     bracketTax t =
     add (lit "1027.50") (mul (sub t (lit "10275")) (lit "0.12"))) /\
    (gt t (lit "41775") = true -> le t (lit "89450") = true ->
     bracketTax t =
     add (lit "4807.50") (mul (sub t (lit "41775")) (lit "0.22"))) /\
    (le t (lit "10275") = false -> le t (lit "41775") = false ->
     le t (lit "89450") = false ->
     bracketTax t =
     add (lit "15213.50") (mul (sub t (lit "89450")) (lit "0.24"))) /\
    (gt t (lit "89450") = true ->
     bracketTax t =
     add (lit "15213.50") (mul (sub t (lit "89450")) (lit "0.24"))) /\
    bracketTax (lit "10275") = lit "1027.50".
Proof.
  intros t Hpos.
  assert (H12 : le (lit "10275") (lit "41775") = true) by (vm_compute; reflexivity).
  assert (H23 : le (lit "41775") (lit "89450") = true) by (vm_compute; reflexivity).
  unfold bracketTax. rewrite Hpos.
  split; [|split; [|split; [|split; [|split]]]].
  - intros H1. now rewrite H1.
  - intros H1 H2. apply lt_not_ge in H1. now rewrite H1, H2.
  - intros H2 H3. pose proof (lt_not_ge _ _ H2) as H2'.
    destruct (le t (lit "10275")) eqn:H1.
    + rewrite (le_trans _ _ _ H1 H12) in H2'. discriminate.
    + now rewrite H2', H3.
  - intros H1 H2 H3. now rewrite H1, H2, H3.
  - intros H3. pose proof (lt_not_ge _ _ H3) as H3'.
    destruct (le t (lit "41775")) eqn:H2.
    + rewrite (le_trans _ _ _ H2 H23) in H3'. discriminate.
    + destruct (le t (lit "10275")) eqn:H1.
      * rewrite (le_trans _ _ _ H1 H12) in H2. discriminate.
      * now rewrite H3'.
  - vm_compute. reflexivity.
Qed.

Lemma bracketTax_piecewise_witness :
  gt (lit "50000") (lit "0") = true /\
  bracketTax (lit "50000") =
  add (lit "4807.50") (mul (sub (lit "50000") (lit "41775")) (lit "0.22")).
Proof.
  split; [reflexivity|].
  exact (proj1 (proj2 (proj2 (bracketTax_piecewise (lit "50000") eq_refl)))
           eq_refl eq_refl).
Defined.

(** C4: for a total income of 50000 and two dependents the tax before the
    deduction is [4807.50 + (50000 - 41775) * 0.22 = 6617.00], the
    deduction is 4000, the tax owed is 2617.00 and the effective rate is
    5.23. *)
Theorem calculateTax_50000_two_dependents :
  let c := calculateTax (Some [("wages"%string, Some (lit "50000"))]) 2 in
  totalIncome c = lit "50000" /\
  bracketTax (totalIncome c) = lit "6617.00" /\
  add (lit "4807.50") (mul (sub (lit "50000") (lit "41775")) (lit "0.22"))
    = lit "6617.00" /\
  dependentDeduction c = lit "4000" /\
  taxOwed c = lit "2617.00" /\
  effectiveRate c = lit "5.23" /\
  calculate (lit "50000") (lit "2") = c.
Proof. cbv zeta. repeat split; vm_compute; reflexivity. Qed.

(** C8 fails in the code: the tax before the deduction at 89450 is
    15296.00, and at 89451 it is 15213.74.  The base amount of the top
    bracket, 15213.50, is not the tax the third bracket reaches at its
    upper bound, [4807.50 + (89450 - 41775) * 0.22 = 15296.00]; it is the
    tax reached at 89075.  The bases 1027.50 and 4807.50 of the second and
    third brackets are the amounts reached at 10275 and 41775. *)
Theorem bracketTax_drops_after_89450 :
  le (lit "0") (lit "89450") = true /\
  le (lit "89450") (lit "89451") = true /\
  bracketTax (lit "89450") = lit "15296.00" /\
  bracketTax (lit "89451") = lit "15213.74" /\
  le (bracketTax (lit "89450")) (bracketTax (lit "89451")) = false /\
  lt (bracketTax (lit "89451")) (bracketTax (lit "89450")) = true /\
  mul (lit "10275") (lit "0.10") = lit "1027.50" /\
  add (lit "1027.50") (mul (sub (lit "41775") (lit "10275")) (lit "0.12"))
    = lit "4807.50" /\
  add (lit "4807.50") (mul (sub (lit "89075") (lit "41775")) (lit "0.22"))
    = lit "15213.50" /\
  add (lit "4807.50") (mul (sub (lit "89450") (lit "41775")) (lit "0.22"))
    = lit "15296.00".
Proof. repeat split; vm_compute; reflexivity. Qed.

(* ================================================================== *)
(** * The 1098 helper and the W-2 record *)
(* ================================================================== *)

Lemma gt_mono (c x y : number) :
  le x y = true -> gt x c = true -> gt y c = true.
Proof. unfold gt. intros Hxy Hc. eapply lt_le_trans; eassumption. Qed.

Lemma gt_weaken (c c' x : number) :
  lt c c' = true -> gt x c' = true -> gt x c = true.
Proof.
  unfold gt. intros Hc Hx. eapply lt_le_trans; [exact Hc|]. now apply lt_le.
Qed.

(** The cascade of the helper, on the wages it has parsed. *)
Lemma loanInterest_cascade :
  forall w2Data : object,
    let wages := parsedWages w2Data in
    let r := calculateStudentLoanInterest w2Data in
    (gt wages (lit "30000") = true -> r = str "2500.00") /\
    (gt wages (lit "30000") = false -> gt wages (lit "20000") = true ->
     r = str "1500.00") /\
    (gt wages (lit "20000") = false -> gt wages (lit "10000") = true ->
     r = str "800.00") /\
    (gt wages (lit "10000") = false -> r = str "0.00") /\
    In r [str "2500.00"; str "1500.00"; str "800.00"; str "0.00"] /\
    (get "box1_wages" w2Data = VUndefined -> r = str "0.00") /\
    (isNaN wages = true -> r = str "0.00") /\
    (forall w2Data' : object,
        le wages (parsedWages w2Data') = true ->
        le (parseFloat r) (parseFloat (calculateStudentLoanInterest w2Data'))
        = true).
Proof.
  intros w2Data wages r. subst r. unfold calculateStudentLoanInterest.
  fold wages.
  assert (H23 : lt (lit "20000") (lit "30000") = true) by (vm_compute; reflexivity).
  assert (H12 : lt (lit "10000") (lit "20000") = true) by (vm_compute; reflexivity).
  pose proof (gt_weaken _ _ wages H23) as W3.
  pose proof (gt_weaken _ _ wages H12) as W2.
  repeat split.
  - intros ->. reflexivity.
  - intros -> ->. reflexivity.
  - intros H2 H1. destruct (gt wages (lit "30000")); [now rewrite W3 in H2|].
    now rewrite H2, H1.
  - intros H1.
    destruct (gt wages (lit "20000")); [now rewrite W2 in H1|].
    destruct (gt wages (lit "30000")); [now discriminate W3|].
    now rewrite H1.
  - destruct (gt wages (lit "30000")); [now left|].
    destruct (gt wages (lit "20000")); [now right; left|].
    destruct (gt wages (lit "10000")); [now right; right; left|].
    now right; right; right; left.
  - intros H. subst wages. unfold parsedWages. rewrite H. reflexivity.
  - intros H. destruct wages; try discriminate. reflexivity.
  - intros w2Data' Hle. set (wages' := parsedWages w2Data') in *.
    pose proof (gt_mono (lit "30000") _ _ Hle) as M3.
    pose proof (gt_mono (lit "20000") _ _ Hle) as M2.
    pose proof (gt_mono (lit "10000") _ _ Hle) as M1.
    pose proof (gt_weaken _ _ wages' H23) as W3'.
    pose proof (gt_weaken _ _ wages' H12) as W2'.
    destruct (gt wages (lit "30000")).
    { rewrite (M3 eq_refl). vm_compute. reflexivity. }
    destruct (gt wages (lit "20000")).
    { rewrite (M2 eq_refl).
      destruct (gt wages' (lit "30000")); vm_compute; reflexivity. }
    destruct (gt wages (lit "10000")).
    { rewrite (M1 eq_refl).
      destruct (gt wages' (lit "30000")); [vm_compute; reflexivity|].
      destruct (gt wages' (lit "20000")); vm_compute; reflexivity. }
    destruct (gt wages' (lit "30000")); [vm_compute; reflexivity|].
    destruct (gt wages' (lit "20000")); [vm_compute; reflexivity|].
    destruct (gt wages' (lit "10000")); vm_compute; reflexivity.
Qed.

Lemma wagesIn_parsedWages (w2Data : object) (wages : number) :
  wagesIn (get "box1_wages" w2Data) wages -> parsedWages w2Data = wages.
Proof.
  unfold parsedWages, wagesIn.
  intros [(s & -> & Hs & ->) | [(x & -> & Hx & ->) | [[Hf ->] | [-> ->]]]].
  - destruct s; [contradiction|reflexivity].
  - unfold orElse. cbn [JSValue.truthy]. rewrite Hx.
    destruct x as [sx|sx| |sx m e]; try discriminate; reflexivity.
  - unfold orElse. rewrite Hf. reflexivity.
  - reflexivity.
Qed.

Lemma wagesIn_total (v : value) : exists wages, wagesIn v wages.
Proof.
  unfold wagesIn. destruct v as [| |[]|x|s].
  - eexists. right. right. left. split; reflexivity.
  - eexists. right. right. left. split; reflexivity.
  - eexists. right. right. right. split; reflexivity.
  - eexists. right. right. left. split; reflexivity.
  - destruct (JSNumber.truthy x) eqn:Hx.
    + exists x. right. left. exists x. auto.
    + eexists. right. right. left. split; [exact Hx|reflexivity].
  - destruct s as [|c s].
    + eexists. right. right. left. split; reflexivity.
    + eexists. left. eexists. split; [reflexivity|].
      split; [discriminate|reflexivity].
Qed.

(** C10: [calculateStudentLoanInterest] returns one of four strings.  The
    wages it compares are read from the [box1_wages] field of its
    argument: a non-empty string is parsed by [parseFloat], a Number
    other than zero and NaN is itself, and a field that is absent, null,
    empty, zero or NaN gives zero.  It returns 2500.00 when these wages
    exceed 30000, 1500.00 when they exceed 20000, 800.00 when they exceed
    10000 and 0.00 otherwise; it returns 0.00 when the field is absent
    or does not parse as a number; and the amount returned does not
    decrease when the wages grow.  At the thresholds themselves the lower
    tier applies. *)
Theorem calculateStudentLoanInterest_tiers :
  (forall w2Data : object,
      let field := get "box1_wages" w2Data in
      let r := calculateStudentLoanInterest w2Data in
      In r [str "2500.00"; str "1500.00"; str "800.00"; str "0.00"] /\
      (exists wages, wagesIn field wages) /\
      (forall wages, wagesIn field wages -> tierOf wages r) /\
      (forall s, field = VString s -> s <> [] -> tierOf (parseFloat s) r) /\
      (field = VUndefined -> r = str "0.00") /\
      (JSValue.truthy field = false -> r = str "0.00") /\
      (forall s, field = VString s -> isNaN (parseFloat s) = true ->
                 r = str "0.00") /\
      (forall (w2Data' : object) (wages wages' : number),
          wagesIn field wages ->
          wagesIn (get "box1_wages" w2Data') wages' ->
          le wages wages' = true ->
          le (parseFloat r)
             (parseFloat (calculateStudentLoanInterest w2Data')) = true)) /\
  calculateStudentLoanInterest [("box1_wages"%string, VString (str "30000.01"))]
    = str "2500.00" /\
  calculateStudentLoanInterest [("box1_wages"%string, VString (str "30000.00"))]
    = str "1500.00" /\
  calculateStudentLoanInterest [("box1_wages"%string, VString (str "20000.01"))]
    = str "1500.00" /\
  calculateStudentLoanInterest [("box1_wages"%string, VString (str "20000.00"))]
    = str "800.00" /\
  calculateStudentLoanInterest [("box1_wages"%string, VString (str "10000.01"))]
    = str "800.00" /\
  calculateStudentLoanInterest [("box1_wages"%string, VString (str "10000.00"))]
    = str "0.00" /\
  calculateStudentLoanInterest [("box1_wages"%string, VNumber (lit "45000"))]
    = str "2500.00" /\
  calculateStudentLoanInterest [("box1_wages"%string, VString (str "n/a"))]
    = str "0.00" /\
  calculateStudentLoanInterest [] = str "0.00".
Proof.
  split; [|repeat split; vm_compute; reflexivity].
  intros w2Data field r.
  destruct (loanInterest_cascade w2Data)
    as (T3 & T2 & T1 & T0 & Hin & _ & Hnan & Hmono).
  assert (Htier : forall wages, wagesIn field wages -> tierOf wages r).
  { intros wages Hw. apply wagesIn_parsedWages in Hw. subst wages.
    repeat split; assumption. }
  assert (Hfalsy : JSValue.truthy field = false -> r = str "0.00").
  { intros Hf. apply (Htier (parseFloat (str "0"))).
    - right. right. left. split; [exact Hf|reflexivity].
    - vm_compute. reflexivity. }
  split; [exact Hin|]. split; [apply wagesIn_total|].
  split; [exact Htier|]. split; [|split; [|split; [|split]]].
  - intros s Hs Hne. apply Htier. left. exists s. auto.
  - intros Hu. apply Hfalsy. fold field. now rewrite Hu.
  - exact Hfalsy.
  - intros s Hs Hn. destruct s as [|c s];
      [apply Hfalsy; rewrite Hs; reflexivity|].
    apply Hnan. subst r field.
    rewrite (wagesIn_parsedWages w2Data (parseFloat (c :: s))); [exact Hn|].
    left. exists (c :: s). split; [exact Hs|]. split; [discriminate|reflexivity].
  - intros w2Data' wages wages' Hw Hw' Hle. apply Hmono.
    rewrite (wagesIn_parsedWages _ _ Hw), (wagesIn_parsedWages _ _ Hw').
    exact Hle.
Qed.

Lemma orElse_string_defined (a : value) (s : jsstring) :
  orElse a (VString s) <> VNull /\ orElse a (VString s) <> VUndefined.
Proof.
  unfold orElse. destruct a; simpl; try (split; discriminate).
  - destruct b; split; discriminate.
  - destruct (JSNumber.truthy x); split; discriminate.
  - destruct (JSString.truthy s0); split; discriminate.
Qed.

Lemma truthy_defined (v : value) :
  JSValue.truthy v = true -> v <> VNull /\ v <> VUndefined.
Proof. destruct v; simpl; try discriminate; split; discriminate. Qed.

Lemma orElse_absent (o : option jsstring) (s : jsstring) :
  o = None \/ o = Some [] -> orElse (ofOption o) (VString s) = VString s.
Proof. intros [-> | ->]; reflexivity. Qed.

Lemma extractedData_defined (text now : jsstring) (fileName : value) :
  JSValue.truthy fileName = true ->
  Forall (fun kv => snd kv <> VNull /\ snd kv <> VUndefined)
         (extractedData text now fileName).
Proof.
  intros Hf. unfold extractedData.
  repeat (apply Forall_cons; [first [ apply orElse_string_defined
                                   | split; discriminate
                                   | apply truthy_defined, Hf ] |]).
  apply Forall_nil.
Qed.

(** C9: in the record the [extract-w2] route returns, no field is null: a
    name that was not found (or was blank) is stored as [Not found] and a
    money box that was not found is stored as [0.00], exactly what is
    stored when the amount [0.00] was found; the records built from a
    text without a wages label and from a text that states wages of 0.00
    are the same record. *)
Theorem extractW2_record_has_no_null :
  forall (u : option user) (fileExists : bool) (pdfText : option jsstring)
         (now : jsstring) (data : object),
    extractW2 u fileExists pdfText now = Success data ->
    (forall k v, In (k, v) data -> v <> VNull /\ v <> VUndefined) /\
    (exists text,
        pdfText = Some text /\
        (forall key patterns,
            In (key, patterns)
               [("employeeName"%string, employeeNamePatterns);
                ("employerName"%string, employerNamePatterns)] ->
            extractField RegExp.exec text patterns = None \/
            extractField RegExp.exec text patterns = Some [] ->
            get key data = VString (str "Not found")) /\
        (forall key patterns,
            In (key, patterns)
               [("box1_wages"%string, box1Patterns);
                ("box2_federalTax"%string, box2Patterns);
                ("box3_socialSecurityWages"%string, box3Patterns);
                ("box4_socialSecurityTax"%string, box4Patterns);
                ("box5_medicareWages"%string, box5Patterns);
                ("box6_medicareTax"%string, box6Patterns)] ->
            extractMoneyField RegExp.exec text patterns = None \/
            extractMoneyField RegExp.exec text patterns = Some (str "0.00") ->
            get key data = VString (str "0.00"))) /\
    (extractMoneyField RegExp.exec (str "") box1Patterns = None /\
     extractMoneyField RegExp.exec (str "Wages: 0.00") box1Patterns
       = Some (str "0.00") /\
     forall now' fileName,
       extractedData (str "") now' fileName =
       extractedData (str "Wages: 0.00") now' fileName).
Proof.
  intros u fileExists pdfText now data H. unfold extractW2 in H.
  destruct u as [usr|]; [|discriminate].
  destruct (JSValue.truthy (w2FileName usr)) eqn:Hf; [|discriminate].
  destruct fileExists; [|discriminate].
  destruct pdfText as [text|]; [|discriminate].
  simpl in H. injection H as <-.
  split; [|split].
  - intros k v Hin.
    pose proof (extractedData_defined text now _ Hf) as Hall.
    rewrite Forall_forall in Hall. exact (Hall (k, v) Hin).
  - exists text. split; [reflexivity|]. split.
    + intros key patterns Hin Hnone. unfold extractedData.
      cbn [In] in Hin.
      destruct Hin as [E | [E | []]]; injection E as <- <-;
        apply (orElse_absent _ (str "Not found")) in Hnone;
        rewrite Hnone; reflexivity.
    + intros key patterns Hin Hnone. unfold extractedData.
      cbn [In] in Hin.
      assert (Hz : orElse (ofOption (extractMoneyField RegExp.exec text patterns))
                     (VString (str "0.00")) = VString (str "0.00")).
      { destruct Hnone as [-> | ->]; reflexivity. }
      destruct Hin as [E | [E | [E | [E | [E | [E | []]]]]]];
        injection E as <- <-; rewrite Hz; reflexivity.
  - split; [vm_compute; reflexivity|]. split; [vm_compute; reflexivity|].
    intros now' fileName. vm_compute. reflexivity.
Qed.

Lemma extractW2_record_has_no_null_witness :
  extractW2 (Some {| w2FileName := VString (str "w2-1.pdf") |}) true
            (Some (str "Wages: 0.00")) (str "2024-04-15T00:00:00.000Z")
  = Success (extractedData (str "Wages: 0.00")
               (str "2024-04-15T00:00:00.000Z") (VString (str "w2-1.pdf"))) /\
  forall k v,
    In (k, v) (extractedData (str "Wages: 0.00")
                 (str "2024-04-15T00:00:00.000Z") (VString (str "w2-1.pdf"))) ->
    v <> VNull /\ v <> VUndefined.
Proof.
  split; [reflexivity|].
  exact (proj1 (extractW2_record_has_no_null
                  (Some {| w2FileName := VString (str "w2-1.pdf") |}) true
                  (Some (str "Wages: 0.00")) (str "2024-04-15T00:00:00.000Z")
                  _ eq_refl)).
Defined.

(* ================================================================== *)
(** * Soundness of the matcher *)
(* ================================================================== *)

Section MatcherSound.
Context {A : Type}.

Lemma one_sound (p : N -> bool) (k : option N -> jsstring -> option A)
    (prev : option N) (s : jsstring) (a : A) :
  one p k prev s = Some a ->
  exists c s', s = c :: s' /\ p c = true /\ k (Some c) s' = Some a.
Proof.
  unfold one. destruct s as [|c s']; [discriminate|].
  destruct (p c) eqn:E; [|discriminate]. intros H. exists c, s'. auto.
Qed.

Lemma many_sound (p : N -> bool) (g : bool)
    (k : option N -> jsstring -> option A) (s : jsstring) :
  forall (prev : option N) (a : A),
    many p g k prev s = Some a ->
    exists w s' prev',
      s = w ++ s' /\ forallb p w = true /\ k prev' s' = Some a.
Proof.
  induction s as [|c s IH]; intros prev a; simpl.
  - intros H. exists [], [], prev. auto.
  - destruct g.
    + destruct (p c) eqn:E.
      * destruct (many p true k (Some c) s) as [a'|] eqn:M.
        -- intros H. injection H as <-.
           destruct (IH _ _ M) as (w & s' & prev' & -> & Hw & Hk).
           exists (c :: w), s', prev'. simpl. rewrite E, Hw. auto.
        -- intros H. exists [], (c :: s), prev. auto.
      * intros H. exists [], (c :: s), prev. auto.
    + destruct (k prev (c :: s)) as [a'|] eqn:K.
      * intros H. injection H as <-. exists [], (c :: s), prev. auto.
      * destruct (p c) eqn:E; [|discriminate]. intros M.
        destruct (IH _ _ M) as (w & s' & prev' & -> & Hw & Hk).
        exists (c :: w), s', prev'. simpl. rewrite E, Hw. auto.
Qed.

Lemma optional_sound (p : N -> bool) (g : bool)
    (k : option N -> jsstring -> option A)
    (prev : option N) (s : jsstring) (a : A) :
  optional p g k prev s = Some a ->
  (k prev s = Some a) \/
  exists c s', s = c :: s' /\ p c = true /\ k (Some c) s' = Some a.
Proof.
  unfold optional. destruct g.
  - destruct (one p k prev s) as [a'|] eqn:O.
    + intros H. injection H as <-. right. now apply one_sound in O.
    + auto.
  - destruct (k prev s) as [a'|] eqn:K.
    + intros H. injection H as <-. auto.
    + intros O. right. now apply one_sound in O.
Qed.

(** Whatever a successful match hands to its continuation is what is left
    of the input after a text of the pattern, and the capture it hands
    over is the one it received or a text of one of its groups. *)
Lemma run_sound (r : regex) :
  forall (k : option N -> jsstring -> option jsstring -> option A)
         (prev : option N) (s : jsstring) (cap : option jsstring) (a : A),
    run r k prev s cap = Some a ->
    exists w s' prev' cap',
      s = w ++ s' /\ lang r w /\ k prev' s' cap' = Some a /\
      (cap' = cap \/ exists g a0, cap' = Some g /\ In a0 (groupsOf r) /\ lang a0 g).
Proof.
  induction r as [|p|p q g|r1 IH1 r2 IH2|r1 IH1 r2 IH2|r1 IH1|m|m];
    intros k prev s cap a; simpl run.
  - intros H. exists [], s, prev, cap. simpl. auto.
  - intros H. apply one_sound in H. destruct H as (c & s' & -> & Hp & Hk).
    exists [c], s', (Some c), cap. simpl. eauto 8.
  - destruct q.
    + intros H. apply many_sound in H.
      destruct H as (w & s' & prev' & -> & Hw & Hk).
      exists w, s', prev', cap. simpl. auto.
    + intros H. apply one_sound in H. destruct H as (c & s1 & -> & Hp & H).
      apply many_sound in H. destruct H as (w & s' & prev' & -> & Hw & Hk).
      exists (c :: w), s', prev', cap. simpl. rewrite Hp, Hw.
      repeat split; auto. discriminate.
    + intros H. apply optional_sound in H.
      destruct H as [Hk | (c & s' & -> & Hp & Hk)].
      * exists [], s, prev, cap. simpl. auto.
      * exists [c], s', (Some c), cap. simpl. eauto 8.
  - intros H. apply IH1 in H.
    destruct H as (w1 & s1 & prev1 & cap1 & -> & L1 & H & C1).
    apply IH2 in H.
    destruct H as (w2 & s2 & prev2 & cap2 & -> & L2 & H & C2).
    exists (w1 ++ w2), s2, prev2, cap2. rewrite <- app_assoc.
    split; [reflexivity|]. split; [simpl; eauto|]. split; [exact H|].
    destruct C2 as [-> | (g & a0 & -> & Hin & Hl)].
    + destruct C1 as [-> | (g & a0 & -> & Hin & Hl)]; [now left|].
      right. exists g, a0. cbn [groupsOf]. rewrite in_app_iff. auto.
    + right. exists g, a0. cbn [groupsOf]. rewrite in_app_iff. auto.
  - destruct (run r1 k prev s cap) as [a'|] eqn:R1.
    + intros H. injection H as <-. apply IH1 in R1.
      destruct R1 as (w & s' & prev' & cap' & -> & L & H & C).
      exists w, s', prev', cap'. simpl. repeat split; auto.
      destruct C as [-> | (g & a0 & -> & Hin & Hl)]; [now left|].
      right. exists g, a0. cbn [groupsOf]. rewrite in_app_iff. auto.
    + intros H. apply IH2 in H.
      destruct H as (w & s' & prev' & cap' & -> & L & H & C).
      exists w, s', prev', cap'. simpl. repeat split; auto.
      destruct C as [-> | (g & a0 & -> & Hin & Hl)]; [now left|].
      right. exists g, a0. cbn [groupsOf]. rewrite in_app_iff. auto.
  - intros H. apply IH1 in H.
    destruct H as (w & s' & prev' & cap' & -> & L & H & _).
    rewrite length_app, Nat.add_sub, firstn_app, Nat.sub_diag, firstn_all in H.
    simpl in H. rewrite app_nil_r in H.
    exists w, s', prev', (Some w). simpl. repeat split; auto.
    right. exists w, r1. auto.
  - destruct (atLineStart m prev); [|discriminate].
    intros H. exists [], s, prev, cap. simpl. auto.
  - destruct (atLineEnd m s); [|discriminate].
    intros H. exists [], s, prev, cap. simpl. auto.
Qed.
End MatcherSound.

Lemma search_eq (r : regex) (prev : option N) (s : jsstring) :
  search r prev s =
  match run r (fun _ s' cap => Some (s', cap)) prev s None with
  | Some (s', cap) =>
      Some [Some (firstn (List.length s - List.length s') s); cap]
  | None =>
      match s with
      | c :: s' => search r (Some c) s'
      | [] => None
      end
  end.
Proof. destruct s; reflexivity. Qed.

Lemma match_here_sound (r : regex) (prev : option N) (s s' : jsstring)
    (cap : option jsstring) :
  run r (fun _ s' cap => Some (s', cap)) prev s None = Some (s', cap) ->
  exists w,
    s = w ++ s' /\ lang r w /\ capturedBy (groupsOf r) cap /\
    firstn (List.length s - List.length s') s = w.
Proof.
  intros R. apply run_sound in R.
  destruct R as (w & s1 & prev' & cap' & E & L & K & C).
  injection K as -> ->. exists w. subst s.
  rewrite length_app, Nat.add_sub, firstn_app, Nat.sub_diag, firstn_all.
  simpl. rewrite app_nil_r. repeat split; auto.
  destruct C as [-> | (g & a0 & -> & Hin & Hl)]; simpl; eauto.
Qed.

(** A match array holds a text of the pattern found in the input, and at
    index 1 either nothing or a text of one of the pattern's groups. *)
Lemma exec_sound (r : regex) (text : jsstring) (arr : matchArray) :
  exec r text = Some arr ->
  exists before w after cap,
    text = before ++ w ++ after /\ lang r w /\
    arr = [Some w; cap] /\ capturedBy (groupsOf r) cap.
Proof.
  unfold exec. generalize (@None N).
  induction text as [|c text IH]; intros prev; rewrite search_eq.
  - destruct (run r _ prev [] None) as [[s' cap]|] eqn:R; [|discriminate].
    intros H. injection H as <-.
    destruct (match_here_sound _ _ _ _ _ R) as (w & E & L & C & Hw).
    subst w. eexists [], _, s', cap. repeat split; eauto.
  - destruct (run r _ prev (c :: text) None) as [[s' cap]|] eqn:R.
    + intros H. injection H as <-.
      destruct (match_here_sound _ _ _ _ _ R) as (w & E & L & C & Hw).
      subst w. eexists [], _, s', cap. repeat split; eauto.
    + intros H. apply IH in H.
      destruct H as (before & w & after & cap & -> & L & -> & C).
      exists (c :: before), w, after, cap. auto.
Qed.

(* ================================================================== *)
(** * The shape of the extracted fields *)
(* ================================================================== *)

Lemma money_groups :
  Forall (Forall (fun p => groupsOf p = [amountGroup])) moneyPatternLists.
Proof. repeat constructor. Qed.

Lemma name_groups :
  Forall (Forall (fun p => groupsOf p = [nameGroup])) namePatternLists.
Proof. repeat constructor. Qed.

(** What a helper keeps is a text of a group of the rule that matched. *)
Lemma captured_group (p : regex) (text g : jsstring) :
  captured (exec p text) = Some g ->
  exists a, In a (groupsOf p) /\ lang a g.
Proof.
  intros H. apply captured_some in H.
  destruct H as (arr & Hexec & Hg & _).
  apply exec_sound in Hexec.
  destruct Hexec as (before & w & after & cap & _ & _ & -> & C).
  unfold group1 in Hg. simpl in Hg. subst cap. exact C.
Qed.

Lemma kept_capture (a : regex) (patterns : list regex) (text g : jsstring)
    (p : regex) :
  Forall (fun q => groupsOf q = [a]) patterns ->
  In p patterns -> captured (exec p text) = Some g -> lang a g.
Proof.
  intros Hall Hin Hc. rewrite Forall_forall in Hall.
  destruct (captured_group _ _ _ Hc) as (a0 & Ha & Hl).
  rewrite (Hall p Hin) in Ha. destruct Ha as [<- | []]. exact Hl.
Qed.

(** ** Lists *)

Lemma dropWhile_all (p : N -> bool) (a b : jsstring) :
  forallb p a = true ->
  match b with c :: _ => p c = false | [] => True end ->
  dropWhile p (a ++ b) = b.
Proof.
  intros Ha Hb. induction a as [|x a IH]; simpl in *.
  - destruct b as [|c b]; [reflexivity|]. simpl. now rewrite Hb.
  - apply andb_prop in Ha. destruct Ha as [-> Ha]. auto.
Qed.

Lemma take_drop (p : N -> bool) (s : jsstring) :
  s = takeWhile p s ++ dropWhile p s /\ forallb p (takeWhile p s) = true /\
  match dropWhile p s with c :: _ => p c = false | [] => True end.
Proof.
  induction s as [|x s (E & F & H)]; simpl; [auto|].
  destruct (p x) eqn:Px; simpl.
  - rewrite Px, F. repeat split; auto. now rewrite <- E.
  - rewrite Px. auto.
Qed.

Lemma forallb_dropWhile (p q : N -> bool) (s : jsstring) :
  forallb p s = true -> forallb p (dropWhile q s) = true.
Proof.
  induction s as [|x s IH]; simpl; [auto|]. intros H.
  apply andb_prop in H. destruct H as [Hx Hs].
  destruct (q x); [auto|]. simpl. now rewrite Hx, Hs.
Qed.

Lemma forallb_rev (p : N -> bool) (s : jsstring) :
  forallb p (rev s) = forallb p s.
Proof.
  induction s as [|x s IH]; simpl; [reflexivity|].
  rewrite forallb_app, IH. simpl. rewrite andb_true_r. apply andb_comm.
Qed.

Lemma forallb_trim (p : N -> bool) (s : jsstring) :
  forallb p s = true -> forallb p (trim s) = true.
Proof.
  intros H. unfold trim, trimEnd, trimStart.
  rewrite forallb_rev. apply forallb_dropWhile.
  rewrite forallb_rev. now apply forallb_dropWhile.
Qed.

(** [trim] leaves no white space at either end. *)
Lemma trim_isTrimmed (s : jsstring) : isTrimmed (trim s) = true.
Proof.
  unfold trim, trimEnd, trimStart.
  set (t := dropWhile isWhiteSpace s).
  assert (Ht : match t with c :: _ => isWhiteSpace c = false | [] => True end)
    by apply take_drop.
  destruct (take_drop isWhiteSpace (rev t)) as (E & _ & H).
  remember (takeWhile isWhiteSpace (rev t)) as tw eqn:Etw. clear Etw.
  destruct (dropWhile isWhiteSpace (rev t)) as [|h r']; [reflexivity|].
  apply (f_equal (@rev N)) in E.
  rewrite rev_involutive, rev_app_distr in E. simpl rev in *.
  unfold isTrimmed.
  destruct (rev r' ++ [h]) as [|c l] eqn:El.
  { destruct (rev r'); discriminate. }
  rewrite <- El, last_last, H. simpl. rewrite andb_true_r.
  rewrite E in Ht. simpl in Ht. now rewrite Ht.
Qed.

Lemma removeAll_app (c : N) (a b : jsstring) :
  removeAll c (a ++ b) = removeAll c a ++ removeAll c b.
Proof. apply filter_app. Qed.

Lemma removeAll_digits (s : jsstring) :
  forallb isDigit s = true -> removeAll comma s = s.
Proof.
  unfold removeAll. induction s as [|x s IH]; [reflexivity|].
  cbn [forallb filter]. intros H. apply andb_prop in H. destruct H as [Hx Hs].
  destruct (N.eqb_spec x comma) as [->|_]; [discriminate|].
  cbn [negb]. now rewrite IH.
Qed.

Lemma removeAll_digitOrComma (s : jsstring) :
  forallb digitOrComma s = true ->
  forallb isDigit (removeAll comma s) = true.
Proof.
  unfold removeAll. induction s as [|x s IH]; [reflexivity|].
  cbn [forallb filter]. intros H. apply andb_prop in H. destruct H as [Hx Hs].
  destruct (N.eqb_spec x comma) as [->|Hne]; cbn [negb forallb]; [auto|].
  rewrite IH by exact Hs. unfold digitOrComma, digit in Hx.
  apply orb_prop in Hx. destruct Hx as [-> | Hx]; [reflexivity|].
  change (N.eqb 44 x = true) in Hx. apply N.eqb_eq in Hx.
  subst x. now elim Hne.
Qed.

Lemma includes_digits (s : jsstring) :
  forallb isDigit s = true -> includes dot s = false.
Proof.
  unfold includes. induction s as [|x s IH]; [reflexivity|].
  cbn [forallb existsb]. intros H. apply andb_prop in H. destruct H as [Hx Hs].
  rewrite IH by exact Hs.
  destruct (N.eqb_spec dot x) as [<-|_]; [discriminate|reflexivity].
Qed.

(** A captured amount, formatted, is digits, one point, digits. *)
Lemma amount_shape (g : jsstring) :
  lang amountGroup g -> isDecimalNumeral (formatAmount g) = true.
Proof.
  intros (u & v & -> & [_ Hu] & u2 & v2 & -> & Hdot & u3 & v3 & -> & Hd & ->).
  cbn [lang] in Hd. rewrite app_nil_r.
  unfold formatAmount. rewrite !removeAll_app.
  pose proof (removeAll_digitOrComma u Hu) as Hu'.
  rewrite (removeAll_digits u3 Hd).
  unfold isDecimalNumeral.
  destruct Hdot as [-> | (c & -> & Hc)].
  - simpl removeAll. simpl app.
    assert (Hall : forallb isDigit (removeAll comma u ++ u3) = true)
      by (rewrite forallb_app, Hu'; exact Hd).
    rewrite (includes_digits _ Hall).
    rewrite (dropWhile_all isDigit _ (str ".00") Hall) by reflexivity.
    reflexivity.
  - change (N.eqb 46 c = true) in Hc. apply N.eqb_eq in Hc. subst c.
    change (removeAll comma [46%N]) with [dot].
    rewrite includes_app. change (includes dot ([dot] ++ u3)) with true.
    rewrite orb_true_r.
    rewrite (dropWhile_all isDigit _ ([dot] ++ u3) Hu') by reflexivity.
    simpl. exact Hd.
Qed.

Lemma money_field (text : jsstring) (patterns : list regex) :
  In patterns moneyPatternLists ->
  exists s,
    orElse (ofOption (extractMoneyField exec text patterns))
           (VString (str "0.00")) = VString s /\
    isDecimalNumeral s = true.
Proof.
  intros Hin.
  destruct (extractMoneyField exec text patterns) as [s|] eqn:E.
  - destruct (extractMoneyField_first _ _ _ _ E)
      as (sk & p & rest & g & Hp & _ & Hc & ->).
    pose proof money_groups as Hall. rewrite Forall_forall in Hall.
    assert (Hl : lang amountGroup g).
    { eapply (kept_capture amountGroup patterns); [now apply Hall| |exact Hc].
      rewrite Hp. apply in_elt. }
    pose proof (amount_shape g Hl) as Hs.
    exists (formatAmount g). split; [|exact Hs].
    unfold orElse. simpl.
    destruct (formatAmount g); [discriminate|reflexivity].
  - exists (str "0.00"). split; reflexivity.
Qed.

Lemma name_field (text : jsstring) (patterns : list regex) :
  In patterns namePatternLists ->
  exists s,
    orElse (ofOption (extractField exec text patterns))
           (VString (str "Not found")) = VString s /\
    s <> [] /\ forallb nameChar s = true /\ isTrimmed s = true.
Proof.
  intros Hin.
  destruct (extractField exec text patterns) as [s|] eqn:E.
  - destruct (extractField_first _ _ _ _ E)
      as (sk & p & rest & g & Hp & _ & Hc & ->).
    pose proof name_groups as Hall. rewrite Forall_forall in Hall.
    assert (Hl : lang nameGroup g).
    { eapply (kept_capture nameGroup patterns); [now apply Hall| |exact Hc].
      rewrite Hp. apply in_elt. }
    destruct Hl as [_ Hl]. unfold orElse. simpl.
    destruct (trim g) as [|c t] eqn:Et.
    + exists (str "Not found").
      split; [reflexivity|]. split; [discriminate|]. split; reflexivity.
    + exists (c :: t). split; [reflexivity|]. split; [discriminate|].
      rewrite <- Et. split; [now apply forallb_trim|apply trim_isTrimmed].
  - exists (str "Not found").
    split; [reflexivity|]. split; [discriminate|]. split; reflexivity.
Qed.

(** X1: whatever the text of the uploaded file, each of the six money
    boxes of the extracted record is made of digits and exactly one
    decimal point: no comma, no sign, no letter. *)
Theorem extractedData_money_fields :
  forall (text now : jsstring) (fileName : value),
    Forall (fun key =>
              exists s,
                get key (extractedData text now fileName) = VString s /\
                isDecimalNumeral s = true)
           moneyKeys.
Proof.
  intros text now fileName. unfold moneyKeys, extractedData.
  repeat first
    [ apply Forall_nil
    | apply Forall_cons;
      [ match goal with
        | |- exists s, get ?key ?data = _ /\ _ =>
            let v := eval cbv beta iota zeta delta
                       [get String.eqb Ascii.eqb Bool.eqb] in (get key data) in
            match v with
            | orElse (ofOption (extractMoneyField exec text ?ps)) _ =>
                destruct (money_field text ps) as (s & E & D);
                [ unfold moneyPatternLists; simpl; tauto
                | exists s; split; [exact E | exact D] ]
            end
        end | ] ].
Qed.

(** X2: whatever the text, the employee and employer names of the
    extracted record are non-empty, hold only letters, white space,
    commas, points and hyphens, and have no white space at either end. *)
Theorem extractedData_name_fields :
  forall (text now : jsstring) (fileName : value),
    Forall (fun key =>
              exists s,
                get key (extractedData text now fileName) = VString s /\
                s <> [] /\ forallb nameChar s = true /\ isTrimmed s = true)
           nameKeys.
Proof.
  intros text now fileName. unfold nameKeys, extractedData.
  repeat first
    [ apply Forall_nil
    | apply Forall_cons;
      [ match goal with
        | |- exists s, get ?key ?data = _ /\ _ =>
            let v := eval cbv beta iota zeta delta
                       [get String.eqb Ascii.eqb Bool.eqb] in (get key data) in
            match v with
            | orElse (ofOption (extractField exec text ?ps)) _ =>
                destruct (name_field text ps) as (s & E & D);
                [ unfold namePatternLists; simpl; tauto
                | exists s; split; [exact E | exact D] ]
            end
        end | ] ].
Qed.

(* ================================================================== *)
(** * From the extracted record to the 1098 form *)
(* ================================================================== *)

Lemma formatAmount_truthy (g : jsstring) :
  JSString.truthy (formatAmount g) = true.
Proof.
  unfold formatAmount.
  destruct (includes dot (removeAll comma g)) eqn:E.
  - destruct (removeAll comma g); [discriminate|reflexivity].
  - destruct (removeAll comma g); reflexivity.
Qed.

Lemma extractMoneyField_truthy (text : jsstring) (patterns : list regex)
    (s : jsstring) :
  extractMoneyField exec text patterns = Some s -> JSString.truthy s = true.
Proof.
  intros H.
  destruct (extractMoneyField_first _ _ _ _ H) as (_ & _ & _ & g & _ & _ & _ & ->).
  apply formatAmount_truthy.
Qed.

(** X3: the 1098 helper, applied to the record the extraction builds,
    parses exactly the wages string the extraction found, commas already
    removed; when no wages are found it parses the placeholder and
    returns [0.00]. *)
Theorem loanInterest_reads_extracted_wages :
  forall (text now : jsstring) (fileName : value),
    parsedWages (extractedData text now fileName) =
    match extractMoneyField exec text box1Patterns with
    | Some s => parseFloat s
    | None => lit "0.00"
    end /\
    (extractMoneyField exec text box1Patterns = None ->
     calculateStudentLoanInterest (extractedData text now fileName)
     = str "0.00").
Proof.
  intros text now fileName.
  assert (H : parsedWages (extractedData text now fileName) =
              match extractMoneyField exec text box1Patterns with
              | Some s => parseFloat s
              | None => lit "0.00"
              end).
  { unfold parsedWages, extractedData.
    change (get "box1_wages" _)
      with (JSValue.orElse
              (ofOption (extractMoneyField exec text box1Patterns))
              (VString (str "0.00"))).
    destruct (extractMoneyField exec text box1Patterns) as [s|] eqn:E.
    - pose proof (extractMoneyField_truthy _ _ _ E) as T.
      unfold JSValue.orElse. simpl. rewrite T. simpl. rewrite T. reflexivity.
    - reflexivity. }
  split; [exact H|].
  intros E. unfold calculateStudentLoanInterest. rewrite H, E. reflexivity.
Qed.

(* ================================================================== *)
(** * The routes on the user row *)
(* ================================================================== *)

Lemma lookup_setField_same (key : string) (x : Account.json)
    (fields : list (string * Account.json)) :
  Account.lookup key (Account.setField key x fields) = x.
Proof.
  induction fields as [|[k y] rest IH]; simpl.
  - now rewrite String.eqb_refl.
  - destruct (String.eqb k key) eqn:E; simpl; rewrite E; auto.
Qed.

Lemma lookup_setField_other (key k : string) (x : Account.json)
    (fields : list (string * Account.json)) :
  k <> key ->
  Account.lookup k (Account.setField key x fields) = Account.lookup k fields.
Proof.
  intros Hne. induction fields as [|[k0 y] rest IH]; simpl.
  - destruct (String.eqb_spec key k); [congruence|reflexivity].
  - destruct (String.eqb_spec k0 key) as [->|Hk]; simpl.
    + destruct (String.eqb_spec key k); [congruence|reflexivity].
    + destruct (String.eqb k0 k); auto.
Qed.


(** What a successful extraction does to the user row. *)
Lemma extractW2Route_ok (u : option Account.account) (fileExists : bool)
    (pdfText : option jsstring) (now : jsstring) (data : object)
    (u' : option Account.account) :
  Account.extractW2Route u fileExists pdfText now = (Account.Ok data, u') ->
  exists a text,
    u = Some a /\ pdfText = Some text /\
    data = extractedData text now (Account.w2FileName a) /\
    u' = Some
           {| Account.firstName := Account.firstName a;
              Account.lastName := Account.lastName a;
              Account.ssn := Account.ssn a;
              Account.address := Account.address a;
              Account.w2Uploaded := Account.w2Uploaded a;
              Account.w2UploadDate := Account.w2UploadDate a;
              Account.w2FileName := Account.w2FileName a;
              Account.income :=
                Account.JObject
                  (Account.setField "w2Data" (Account.ofObject data)
                     (Account.spread (Account.income a)));
              Account.deductions := Account.deductions a |}.
Proof.
  unfold Account.extractW2Route, extractW2.
  destruct u as [a|]; simpl; [|discriminate].
  destruct (JSValue.truthy (Account.w2FileName a)); simpl; [|discriminate].
  destruct fileExists; simpl; [|discriminate].
  destruct pdfText as [text|]; [|discriminate].
  intros H. injection H as <- <-. exists a, text. auto.
Qed.

(** X4: after a successful [extract-w2], [w2-data] answers with the very
    record the extraction returned; the extraction leaves every other
    property of the income column as it was, and every other column of
    the user: the deductions, the address, the three W-2 upload columns,
    both names and the SSN. *)
Theorem extractW2_then_getW2Data :
  forall (u : option Account.account) (fileExists : bool)
         (pdfText : option jsstring) (now : jsstring) (data : object)
         (u' : option Account.account),
    Account.extractW2Route u fileExists pdfText now = (Account.Ok data, u') ->
    Account.getW2Data u' = Account.Ok (Account.ofObject data) /\
    exists a a',
      u = Some a /\ u' = Some a' /\
      (forall key, key <> "w2Data"%string ->
                   Account.prop key (Account.income a')
                   = Account.prop key (Account.income a)) /\
      Account.deductions a' = Account.deductions a /\
      Account.address a' = Account.address a /\
      Account.w2Uploaded a' = Account.w2Uploaded a /\
      Account.w2UploadDate a' = Account.w2UploadDate a /\
      Account.w2FileName a' = Account.w2FileName a /\
      Account.firstName a' = Account.firstName a /\
      Account.lastName a' = Account.lastName a /\
      Account.ssn a' = Account.ssn a.
Proof.
  intros u fileExists pdfText now data u' H.
  destruct (extractW2Route_ok _ _ _ _ _ _ H) as (a & text & -> & -> & _ & ->).
  split.
  - unfold Account.getW2Data. cbn [Account.income Account.prop].
    rewrite lookup_setField_same. reflexivity.
  - eexists a, _. split; [reflexivity|]. split; [reflexivity|].
    cbn. repeat split; auto.
    intros key Hne. rewrite lookup_setField_other by exact Hne.
    destruct (Account.income a); reflexivity.
Qed.

Lemma extractW2_then_getW2Data_witness :
  let a := {| Account.firstName := Some (str "Ada"); Account.lastName := None;
              Account.ssn := None; Account.address := Account.JScalar VNull;
              Account.w2Uploaded := VBool true;
              Account.w2UploadDate := VString (str "2024-04-15");
              Account.w2FileName := VString (str "w2-1.pdf");
              Account.income :=
                Account.JObject
                  [("wages"%string, Account.JScalar (VNumber (lit "100")))];
              Account.deductions := Account.JScalar VNull |} in
  exists data u',
    Account.extractW2Route (Some a) true (Some (str "Wages: 1,200"))
      (str "2024-04-16") = (Account.Ok data, u') /\
    Account.getW2Data u' = Account.Ok (Account.ofObject data).
Proof.
  intros a. eexists _, _. split; [reflexivity|].
  exact (proj1 (extractW2_then_getW2Data (Some a) true
                  (Some (str "Wages: 1,200")) (str "2024-04-16") _ _ eq_refl)).
Defined.



(** X6: after [generate-1098], [1098-data] answers with the very form that
    was generated, and the other deductions are as they were. *)
Theorem generate1098_then_get1098Data :
  forall (a : Account.account) (fullYear : JSNumber.number) (now : jsstring),
    exists form a',
      Account.generate1098 (Some a) fullYear now = (Account.Ok form, Some a') /\
      Account.get1098Data (Some a') = Account.Ok form /\
      Account.income a' = Account.income a /\
      (forall key, key <> "form1098Data"%string ->
                   Account.prop key (Account.deductions a')
                   = Account.prop key (Account.deductions a)).
Proof.
  intros a fullYear now. eexists _, _. split; [reflexivity|].
  split; [|split].
  - unfold Account.get1098Data. cbn [Account.deductions Account.prop].
    rewrite lookup_setField_same. reflexivity.
  - reflexivity.
  - intros key Hne. cbn [Account.deductions Account.prop].
    rewrite lookup_setField_other by exact Hne.
    destruct (Account.deductions a); reflexivity.
Qed.

(** ** The recipient name *)






(** ** Upload, then extraction *)

(** X8: once [upload-w2] has succeeded, [extract-w2] no longer answers
    400; if the stored file is on disk and readable it succeeds, and the
    record it returns names the stored file. *)
Theorem uploadW2_then_extractW2 :
  forall (suffix ext : jsstring) (a : Account.account)
         (now answered : jsstring),
    exists a',
      Account.uploadW2 (Some (Account.w2StoredName suffix ext)) (Some a)
                       now answered
      = (Account.Ok (Account.w2StoredName suffix ext, answered), Some a') /\
      Account.income a' = Account.income a /\
      (forall fileExists pdfText now',
          fst (Account.extractW2Route (Some a') fileExists pdfText now')
          <> Account.Status 400) /\
      (forall text now',
          exists data,
            fst (Account.extractW2Route (Some a') true (Some text) now')
            = Account.Ok data /\
            get "fileName" data
            = VString (Account.w2StoredName suffix ext)).
Proof.
  intros suffix ext a now answered. eexists. split; [reflexivity|].
  split; [reflexivity|]. split.
  - intros fileExists pdfText now'.
    unfold Account.extractW2Route, extractW2.
    cbn [option_map Account.w2FileName w2FileName JSValue.truthy
         Account.w2StoredName].
    change (JSString.truthy (str "w2-" ++ suffix ++ ext)) with true.
    cbn [negb]. destruct fileExists; [|discriminate].
    destruct pdfText; discriminate.
  - intros text now'. eexists. split; reflexivity.
Qed.

(* ================================================================== *)
(** * The authorization middleware *)
(* ================================================================== *)

Lemma stripPrefix_app (p t : jsstring) : stripPrefix p (p ++ t) = Some t.
Proof.
  induction p as [|c p IH]; simpl; [reflexivity|]. now rewrite N.eqb_refl.
Qed.

Lemma stripPrefix_some (p s r : jsstring) :
  stripPrefix p s = Some r -> s = p ++ r.
Proof.
  revert s. induction p as [|c p IH]; intros s; simpl.
  - now intros [= ->].
  - destruct s as [|d s]; [discriminate|].
    destruct (N.eqb_spec c d) as [->|]; [|discriminate].
    intros H. now rewrite (IH _ H).
Qed.

Lemma removeFirst_eq (p s : jsstring) :
  Auth.removeFirst p s =
  match stripPrefix p s with
  | Some rest => rest
  | None => match s with
            | c :: s' => c :: Auth.removeFirst p s'
            | [] => []
            end
  end.
Proof. destruct s; reflexivity. Qed.

Lemma removeFirst_prefix (p t : jsstring) : Auth.removeFirst p (p ++ t) = t.
Proof. now rewrite removeFirst_eq, stripPrefix_app. Qed.

Lemma removeFirst_absent (p s : jsstring) :
  (forall a b, s <> a ++ p ++ b) -> Auth.removeFirst p s = s.
Proof.
  induction s as [|c s IH]; intros H.
  - destruct p; [exfalso; now apply (H [] [])|reflexivity].
  - cbn [Auth.removeFirst].
    destruct (stripPrefix p (c :: s)) as [r|] eqn:E.
    + exfalso. apply (H [] r). apply (stripPrefix_some _ _ _ E).
    + f_equal. apply IH. intros a b Hs. apply (H (c :: a) b).
      rewrite Hs. reflexivity.
Qed.

Lemma removeFirst_empty (p s : jsstring) :
  p <> [] -> Auth.removeFirst p s = [] -> s = [] \/ s = p.
Proof.
  intros Hp. destruct s as [|c s]; [now left|].
  cbn [Auth.removeFirst].
  destruct (stripPrefix p (c :: s)) as [r|] eqn:E; [|discriminate].
  intros ->. right. rewrite (stripPrefix_some _ _ _ E). apply app_nil_r.
Qed.

Lemma auth_answerFor {U : Type} (verify : jsstring -> option U)
    (h : jsstring) :
  Auth.auth verify (Some h)
  = answerFor verify (Auth.removeFirst (str "Bearer ") h).
Proof.
  unfold Auth.auth, answerFor. cbn [option_map].
  destruct (JSString.truthy _); reflexivity.
Qed.

(** X9: the middleware answers [No token] whatever the verification
    would say exactly for a request without the header, with an empty
    header, or with the bare scheme [Bearer ] and nothing after it. *)
Theorem auth_no_token_iff :
  forall (U : Type) (authorization : option jsstring),
    (forall verify : jsstring -> option U,
        Auth.auth verify authorization = Auth.NoToken)
    <-> (authorization = None \/ authorization = Some []
         \/ authorization = Some (str "Bearer ")).
Proof.
  intros U [h|]; split.
  - intros H. specialize (H (fun _ => None)). rewrite auth_answerFor in H.
    unfold answerFor in H.
    destruct (Auth.removeFirst (str "Bearer ") h) as [|c t] eqn:E;
      [|discriminate].
    assert (Hp : str "Bearer " <> []) by (vm_compute; discriminate).
    destruct (removeFirst_empty _ _ Hp E) as [->| ->]; auto.
  - intros [H|[H|H]] verify; [discriminate| |]; injection H as E; subst h;
      reflexivity.
  - auto.
  - reflexivity.
Qed.

(** X10: for a header [Bearer t] the token that is verified is [t]; a
    header in which [Bearer ] occurs nowhere is verified as it stands, so
    the scheme is not required. *)
Theorem auth_token_of_header :
  forall (U : Type) (verify : jsstring -> option U),
    (forall t, Auth.auth verify (Some (str "Bearer " ++ t))
               = answerFor verify t) /\
    (forall h, (forall a b, h <> a ++ str "Bearer " ++ b) ->
               Auth.auth verify (Some h) = answerFor verify h).
Proof.
  intros U verify. split.
  - intros t. now rewrite auth_answerFor, removeFirst_prefix.
  - intros h H. now rewrite auth_answerFor, removeFirst_absent.
Qed.

(* ================================================================== *)
(** * The mocked extraction *)
(* ================================================================== *)

(** X11: the employee name of the mocked extraction is always the two
    name columns joined by a space, a missing one reading [null]; the
    default [John Doe] is never taken. *)
Theorem mock_employeeName_never_default :
  forall firstName lastName : option jsstring,
    Mock.employeeName firstName lastName
    = Mock.concatText firstName ++ str " " ++ Mock.concatText lastName.
Proof.
  intros f l. unfold Mock.employeeName.
  destruct (Mock.concatText f ++ str " " ++ Mock.concatText l) eqn:E;
    [|reflexivity].
  apply app_eq_nil in E. destruct E as [_ E]. discriminate.
Qed.

(* ================================================================== *)
(** * More on the tax calculation *)
(* ================================================================== *)

(** For valid Numbers, [y < x] makes [x - y] positive or [+0]. *)
Lemma sub_positive (x y : number) :
  valid_binary prec emax x = true -> valid_binary prec emax y = true ->
  lt y x = true -> hasSign false (sub x y) = true.
Proof.
  intros Hx Hy Hlt.
  destruct x as [[]|[]| |sx mx ex], y as [[]|[]| |sy my ey];
    try discriminate; try reflexivity;
    try (destruct sy; try discriminate; reflexivity);
    try (destruct sx; try discriminate; reflexivity).
  pose proof (valid_finite _ _ _ Hx) as Vx.
  pose proof (valid_finite _ _ _ Hy) as Vy.
  unfold sub, SFsub.
  set (ez := Z.min ex ey).
  rewrite (shl_align_value mx ex ez) by (subst ez; lia).
  rewrite (shl_align_value my ey ez) by (subst ez; lia).
  set (z := cond_Zopp sx (Z.pos mx * 2 ^ (ex - ez))
            - cond_Zopp sy (Z.pos my * 2 ^ (ey - ez))).
  assert (Px : 0 < 2 ^ (ex - ez)) by (apply Z.pow_pos_nonneg; subst ez; lia).
  assert (Py : 0 < 2 ^ (ey - ez)) by (apply Z.pow_pos_nonneg; subst ez; lia).
  assert (Hz : 0 < z).
  { apply SFltb_key in Hlt. destruct Hlt as (_ & _ & Hk).
    subst z. destruct sx, sy; simpl in Hk; unfold cond_Zopp.
    - assert (Hc : ex < ey \/ (ex = ey /\ Z.pos mx < Z.pos my)) by lia.
      destruct Hc as [Hc | [-> Hc]].
      + pose proof (aligned_lt _ _ _ _ _ _ Hx Hy Hc).
        subst ez. rewrite Z.min_l by lia.
        replace (ex - ex) with 0 by lia. simpl (2 ^ 0). lia.
      + subst ez. rewrite Z.min_id. replace (ey - ey) with 0 by lia.
        simpl (2 ^ 0). lia.
    - lia.
    - nia.
    - assert (Hc : ey < ex \/ (ex = ey /\ Z.pos my < Z.pos mx)) by lia.
      destruct Hc as [Hc | [-> Hc]].
      + pose proof (aligned_lt _ _ _ _ _ _ Hy Hx Hc).
        subst ez. rewrite Z.min_r by lia.
        replace (ey - ey) with 0 by lia. simpl (2 ^ 0). lia.
      + subst ez. rewrite Z.min_id. replace (ey - ey) with 0 by lia.
        simpl (2 ^ 0). lia. }
  destruct z as [|p|p]; try lia. simpl binary_normalize.
  apply binary_round_sign.
Qed.

Lemma add_nonneg (x y : number) :
  hasSign false x = true -> hasSign false y = true ->
  hasSign false (add x y) = true.
Proof.
  destruct x as [[]|[]| |[] mx ex], y as [[]|[]| |[] my ey];
    try discriminate; try reflexivity.
  intros _ _. unfold add, SFadd. apply binary_normalize_nonneg.
  cbn [cond_Zopp]. lia.
Qed.

Lemma positive_sign (t : number) :
  gt t (lit "0") = true -> hasSign false t = true.
Proof.
  lit_values. destruct t as [[]|[]| |[] m e]; try discriminate; reflexivity.
Qed.

Lemma bracketTax_sign (t : number) :
  valid_binary prec emax t = true -> hasSign false (bracketTax t) = true.
Proof.
  intros Hv. unfold bracketTax.
  destruct (gt t (lit "0")) eqn:Hpos; [|reflexivity].
  pose proof (positive_sign t Hpos) as Hs.
  pose proof (hasSign_notNaN _ _ Hs) as Hn.
  assert (Hstep : forall base bound rate : number,
             valid_binary prec emax bound = true ->
             isNaN bound = false ->
             hasSign false base = true ->
             (exists m e, rate = S754_finite false m e) ->
             le t bound = false ->
             hasSign false (add base (mul (sub t bound) rate)) = true).
  { intros base bound rate Vb Nb Sb (m & e & ->) Hle.
    apply add_nonneg; [exact Sb|]. apply mul_sign.
    apply sub_positive; [exact Hv|exact Vb|].
    apply not_le_lt; assumption. }
  destruct (le t (lit "10275")) eqn:H1.
  { lit_values. apply mul_sign, Hs. }
  destruct (le t (lit "41775")) eqn:H2.
  { apply Hstep;
      [ reflexivity | reflexivity | reflexivity
      | vm_compute; do 2 eexists; reflexivity | exact H1 ]. }
  destruct (le t (lit "89450")) eqn:H3.
  { apply Hstep;
      [ reflexivity | reflexivity | reflexivity
      | vm_compute; do 2 eexists; reflexivity | exact H2 ]. }
  apply Hstep;
    [ reflexivity | reflexivity | reflexivity
    | vm_compute; do 2 eexists; reflexivity | exact H3 ].
Qed.

Lemma Math_max_zero_nonneg (x : number) :
  hasSign false x = true -> Math_max (lit "0") x = x.
Proof.
  lit_values. destruct x as [[]|[]| |[] m e]; try discriminate; reflexivity.
Qed.

Lemma sub_zero (x : number) :
  hasSign false x = true -> sub x (S754_zero false) = x.
Proof. destruct x as [[]|[]| |[] m e]; try discriminate; reflexivity. Qed.

Lemma income_is_valid (k : string) (x : number) :
  valid_binary prec emax x = true -> validIncome (Some [(k, Some x)]).
Proof.
  intros Hx k' x' [E|[]]. injection E as _ <-. exact Hx.
Qed.

(** X12: the tax of the bracket cascade is never negative, so that with
    no dependents the tax owed is the bracket tax itself, rounded to
    cents: the clamp at zero only ever acts on the dependent deduction. *)
Theorem no_dependents_owes_bracketTax :
  forall income : option incomeObject,
    validIncome income ->
    let c := calculateTax income 0 in
    le (lit "0") (bracketTax (totalIncome c)) = true /\
    Math_max (lit "0") (bracketTax (totalIncome c)) = bracketTax (totalIncome c) /\
    taxOwed c
    = div (Math_round (mul (bracketTax (totalIncome c)) (lit "100")))
          (lit "100").
Proof.
  intros income Hv. cbv zeta. unfold calculateTax, calculate.
  cbn [taxOwed totalIncome].
  pose proof (bracketTax_sign _ (totalIncomeOf_valid income Hv)) as Hs.
  split; [|split].
  - replace (lit "0") with zero by (vm_compute; reflexivity).
    apply hasSign_nonneg, Hs.
  - apply Math_max_zero_nonneg, Hs.
  - replace (mul (ofZ (Z.of_N 0)) (lit "2000")) with (S754_zero false)
      by (vm_compute; reflexivity).
    rewrite (sub_zero _ Hs), (Math_max_zero_nonneg _ Hs). reflexivity.
Qed.

Lemma no_dependents_owes_bracketTax_witness :
  validIncome (Some [("wages"%string, Some (lit "50000"))]) /\
  let c := calculateTax (Some [("wages"%string, Some (lit "50000"))]) 0 in
  le (lit "0") (bracketTax (totalIncome c)) = true /\
  Math_max (lit "0") (bracketTax (totalIncome c)) = bracketTax (totalIncome c) /\
  taxOwed c
  = div (Math_round (mul (bracketTax (totalIncome c)) (lit "100")))
        (lit "100").
Proof.
  assert (H : validIncome (Some [("wages"%string, Some (lit "50000"))])).
  { apply income_is_valid. reflexivity. }
  split; [exact H|].
  exact (no_dependents_owes_bracketTax _ H).
Defined.

(** X13: a total income that is not positive, be it zero, negative or
    NaN, owes nothing at a rate of zero, whatever the number of
    dependents. *)
Theorem nonpositive_income_owes_nothing :
  forall (income : option incomeObject) (dependents : N),
    gt (totalIncomeOf income) (lit "0") = false ->
    let c := calculateTax income dependents in
    bracketTax (totalIncome c) = lit "0" /\
    taxOwed c = lit "0" /\ effectiveRate c = lit "0".
Proof.
  intros income dependents Hgt. cbv zeta. unfold calculateTax, calculate.
  cbn [taxOwed totalIncome effectiveRate].
  assert (Hb : bracketTax (totalIncomeOf income) = lit "0").
  { unfold bracketTax. now rewrite Hgt. }
  rewrite Hb, Hgt. repeat split.
  pose proof (deduction_sign (Z.of_N dependents) ltac:(lia)) as Hd.
  destruct (mul (ofZ (Z.of_N dependents)) (lit "2000")) as [[]|[]| |[] m e];
    try discriminate; vm_compute; reflexivity.
Qed.

Lemma nonpositive_income_owes_nothing_witness :
  let income := Some [("wages"%string, Some (lit "1000"));
                      ("losses"%string, Some (sub (lit "0") (lit "2500")))] in
  gt (totalIncomeOf income) (lit "0") = false /\
  taxOwed (calculateTax income 1) = lit "0".
Proof.
  cbv zeta. split; [reflexivity|].
  exact (proj1 (proj2 (nonpositive_income_owes_nothing
                         (Some [("wages"%string, Some (lit "1000"));
                                ("losses"%string,
                                  Some (sub (lit "0") (lit "2500")))])
                         1 eq_refl))).
Defined.

(** X14: for a positive total income and a dependent count below
    [2^53], the effective rate is a Number that is not negative when the
    total is finite; when the total is [Infinity] the tax owed is
    [Infinity] and the effective rate is NaN. *)
Theorem effectiveRate_of_positive_income :
  forall (income : option incomeObject) (dependents : N),
    gt (totalIncomeOf income) (lit "0") = true ->
    Z.of_N dependents < 2 ^ 53 ->
    let c := calculateTax income dependents in
    (isFinite (totalIncome c) = true ->
     le (lit "0") (effectiveRate c) = true) /\
    (isFinite (totalIncome c) = false ->
     taxOwed c = Infinity /\ effectiveRate c = NaN).
Proof.
  intros income dependents Hgt Hn. cbv zeta. unfold calculateTax, calculate.
  cbn [taxOwed totalIncome effectiveRate]. rewrite Hgt.
  set (t := totalIncomeOf income) in *.
  set (d := mul (ofZ (Z.of_N dependents)) (lit "2000")).
  assert (Hd : isFinite d = true) by (apply deduction_finite; lia).
  split; intros Hf.
  - assert (Hs : isNaN (sub (bracketTax t) d) = false).
    { apply sub_notNaN; [apply bracketTax_notNaN | exact Hd]. }
    replace (lit "0") with zero by (vm_compute; reflexivity).
    apply Math_max_zero_sign in Hs. revert Hs.
    generalize (Math_max zero (sub (bracketTax t) d)). intros x Hx.
    clearbody t. revert Hgt. lit_values. intros Hgt.
    destruct t as [[]|[]| |[] m e]; try discriminate.
    now apply hasSign_nonneg, div_sign, Math_round_sign, mul_sign, div_sign.
  - clearbody t. revert Hgt. lit_values. intros Hgt.
    destruct t as [[]|[]| |[] m e]; try discriminate.
    replace (bracketTax (S754_infinity false)) with (S754_infinity false)
      by (vm_compute; reflexivity).
    destruct d as [[]|[]| |[] m e]; try discriminate;
      split; vm_compute; reflexivity.
Qed.

Lemma effectiveRate_of_positive_income_witness :
  let income := Some [("wages"%string, Some (lit "50000"))] in
  gt (totalIncomeOf income) (lit "0") = true /\
  Z.of_N 2 < 2 ^ 53 /\
  le (lit "0") (effectiveRate (calculateTax income 2)) = true.
Proof.
  cbv zeta. split; [reflexivity|]. split; [reflexivity|].
  exact (proj1 (effectiveRate_of_positive_income
                  (Some [("wages"%string, Some (lit "50000"))]) 2
                  eq_refl eq_refl) eq_refl).
Defined.

(** ** Categories that count for nothing *)

Lemma add_not_negative_zero (a b : number) :
  valid_binary prec emax a = true -> valid_binary prec emax b = true ->
  a <> S754_zero true -> add a b <> S754_zero true.
Proof.
  intros Ha Hb Hz.
  destruct a as [[]|[]| |sx mx ex], b as [[]|[]| |sy my ey];
    try discriminate; try contradiction.
  apply valid_finite in Ha, Hb. unfold add, SFadd.
  set (ez := Z.min ex ey).
  match goal with
  | |- binary_normalize _ _ ?z _ _ <> _ => destruct z as [|p|p]
  end; [discriminate| |]; simpl binary_normalize.
  - pose proof (binary_round_nonzero false p ez ltac:(subst ez; lia)) as Hr.
    destruct (binary_round prec emax false p ez); try contradiction;
      discriminate.
  - pose proof (binary_round_nonzero true p ez ltac:(subst ez; lia)) as Hr.
    destruct (binary_round prec emax true p ez); try contradiction;
      discriminate.
Qed.

Lemma orZero_not_negative_zero (v : option number) :
  orZero v <> S754_zero true.
Proof.
  destruct v as [[[]|[]| |[] m e]|]; simpl; try discriminate;
    vm_compute; discriminate.
Qed.

Lemma sum_not_negative_zero (o : incomeObject) (acc : number) :
  (forall k x, In (k, Some x) o -> valid_binary prec emax x = true) ->
  valid_binary prec emax acc = true -> acc <> S754_zero true ->
  fold_left (fun sum val => add sum (orZero val)) (map snd o) acc
  <> S754_zero true.
Proof.
  revert acc. induction o as [|[k v] o IH]; intros acc H Va Hz; [exact Hz|].
  cbn [map snd fold_left].
  assert (Vv : valid_binary prec emax (orZero v) = true).
  { apply orZero_valid. intros x ->. apply (H k x), in_eq. }
  apply IH.
  - intros k' x Hin. apply (H k' x), in_cons, Hin.
  - now apply add_valid.
  - now apply add_not_negative_zero.
Qed.

Lemma orZero_nothing (v : option number) :
  countsForNothing v = true -> orZero v = lit "0".
Proof.
  destruct v as [x|]; [|reflexivity]. simpl.
  now destruct (JSNumber.truthy x).
Qed.

(** X15: a category stored as [null], as a zero or as NaN adds nothing:
    the total income is what it is without that category, wherever it
    stands among the others. *)
Theorem totalIncomeOf_skips_nothing :
  forall (before after : incomeObject) (k : string) (v : option number),
    validIncome (Some (before ++ after)) ->
    countsForNothing v = true ->
    totalIncomeOf (Some (before ++ (k, v) :: after))
    = totalIncomeOf (Some (before ++ after)).
Proof.
  intros o1 o2 k v Hv Hc. unfold totalIncomeOf. cbn [orEmpty].
  rewrite !map_app, !fold_left_app. cbn [map snd fold_left].
  rewrite (orZero_nothing v Hc). f_equal.
  assert (Hz : fold_left (fun sum val => add sum (orZero val))
                 (map snd o1) (lit "0") <> S754_zero true).
  { apply sum_not_negative_zero.
    - intros k' x Hin. apply (Hv k' x). cbn [orEmpty].
      apply in_or_app. now left.
    - reflexivity.
    - vm_compute. discriminate. }
  revert Hz. generalize (fold_left (fun sum val => add sum (orZero val))
                           (map snd o1) (lit "0")).
  intros a Hz. lit_values.
  destruct a as [[]|[]| |s m e]; try reflexivity. contradiction.
Qed.

Lemma totalIncomeOf_skips_nothing_witness :
  validIncome (Some ([("wages"%string, Some (lit "50000"))]
                     ++ [("tips"%string, Some (lit "100"))])) /\
  countsForNothing (Some NaN) = true /\
  totalIncomeOf (Some ([("wages"%string, Some (lit "50000"))]
                       ++ ("interest"%string, Some NaN)
                       :: [("tips"%string, Some (lit "100"))]))
  = totalIncomeOf (Some ([("wages"%string, Some (lit "50000"))]
                         ++ [("tips"%string, Some (lit "100"))])).
Proof.
  assert (H : validIncome (Some ([("wages"%string, Some (lit "50000"))]
                                 ++ [("tips"%string, Some (lit "100"))]))).
  { intros k x [E|[E|[]]]; injection E as _ <-; vm_compute; reflexivity. }
  split; [exact H|]. split; [reflexivity|].
  exact (totalIncomeOf_skips_nothing _ _ "interest" (Some NaN) H eq_refl).
Defined.

